(** * DevSpace configuration resolution and validation

    A shallow embedding of package [configutil] (loading, memoising and
    validating [devspace.yaml]) and of the constructor of the helm
    deployment client, followed by the properties of the specification
    that were checked against them.

    Conventions of the embedding:
    - a Go pointer that may be nil is an [option]; a slice is an
      [option (list _)] and a map an [option (gmap _ _)], [None] being the
      nil slice or map, which Go tells apart from an empty one;
    - a Go [error] result is an [option error], [None] being [nil];
    - package level variables are the fields of a record that every
      function receives and returns;
    - the operating system (working directory, files) is a record that the
      functions read and, for [os.Chdir], update. *)

From stdpp Require Import base option strings list gmap pretty.
From Stdlib Require Import ZArith Ascii.

Set Default Proof Using "Type".
#[local] Set Warnings "-register-all".
#[local] Open Scope string_scope.

(** ** Errors and results *)

(** The code builds errors along two paths, [errors.Errorf] of
    github.com/pkg/errors (a message with a stack trace) and [fmt.Errorf]
    (a bare message); errors handed over by collaborators (the operating
    system, the YAML library, package [generated]) are [Foreign]. *)
Inductive error : Type :=
  | ErrorsErrorf (msg : string)
  | FmtErrorf (msg : string)
  | Foreign (msg : string).

(** [err.Error()], what the verb [%v] prints. *)
Definition Error (e : error) : string :=
  match e with
  | ErrorsErrorf msg => msg
  | FmtErrorf msg => msg
  | Foreign msg => msg
  end.

Inductive result (A : Type) : Type :=
  | Ok (a : A)
  | Err (e : error).
Arguments Ok {A} a.
Arguments Err {A} e.

(** [%d] for a slice index. *)
Definition fmtd (index : nat) : string := pretty index.

(** ** Untyped YAML documents *)

(** What yaml.v2 produces for [map[interface{}]interface{}]: scalars,
    sequences and nested maps. *)
Inductive Value : Type :=
  | VNull
  | VBool (b : bool)
  | VInt (z : Z)
  | VString (s : string)
  | VSeq (l : list Value)
  | VMap (m : gmap string Value).

Module merge.


(** Modelled from the spec: [merge.Values.MergeInto] of package
    [deploy/helm/merge] is not among the sources. The specification asks
    that override documents be merged in order and that the later source
    wins on conflict; on the tree shaped documents of its data model this
    is the merge of chart values: the receiver takes every key of the
    source, two maps under the same key are merged key by key, and any
    other value under a key of the source replaces the receiver's.
    [MergeValue destVal srcVal] is what ends up under a key that held
    [destVal] and receives [srcVal]. *)
Fixpoint MergeValue (destVal srcVal : Value) {struct srcVal} : Value :=
  match srcVal with
  | VMap src =>
      match destVal with
      | VMap dest =>
          VMap (map_fold (fun key srcVal v =>
                  match v !! key with
                  | Some destVal => <[key := MergeValue destVal srcVal]> v
                  | None => <[key := srcVal]> v
                  end) dest src)
      | _ => srcVal
      end
  | _ => srcVal
  end.

(** [merge.Values(v).MergeInto(src)]: the receiver [v] after the call. *)
Definition MergeInto (v src : gmap string Value) : gmap string Value :=
  map_fold (fun key srcVal v =>
    match v !! key with
    | Some destVal => <[key := MergeValue destVal srcVal]> v
    | None => <[key := srcVal]> v
    end) v src.

End merge.

(** ** The typed model (package [latest])

    The declarations of package [latest] are not among the sources; the
    records below hold the fields that the code under verification reads
    or writes, with the types that its comparisons with [nil], [""] and
    [true] give them. Elements of slices are taken to be non-nil. *)

Record PortMapping : Type := {
  LocalPort : Z;
  RemotePort : Z;
}.

Record PortForwardingConfig : Type := {
  Port_ImageName : string;
  Port_LabelSelector : option (gmap string string);
  Port_PortMappings : option (list PortMapping);
}.

Record SyncConfig : Type := {
  Sync_ImageName : string;
  Sync_LabelSelector : option (gmap string string);
}.

Record InteractiveImageConfig : Type := {
  InteractiveImage_Name : string;
}.

Record InteractiveConfig : Type := {
  Interactive_Images : option (list InteractiveImageConfig);
}.

Record DevConfig : Type := {
  Ports : option (list PortForwardingConfig);
  Sync : option (list SyncConfig);
  Interactive : option InteractiveConfig;
}.

Record CommandConfig : Type := {
  Command_Name : string;
  Command_Command : string;
}.

Record HookConfig : Type := {
  Hook_Command : string;
}.

Record CustomConfig : Type := {
  Custom_Command : string;
}.

Record BuildConfig : Type := {
  Custom : option CustomConfig;
}.

Record ImageConfig : Type := {
  Image : string;
  Build : option BuildConfig;
}.

Record ChartConfig : Type := {
  Chart_Name : string;
  Chart_Version : string;
  Chart_RepoURL : string;
}.

Record HelmConfig : Type := {
  Chart : option ChartConfig;
  ComponentChart : option bool;
  ValuesFiles : option (list string);
  Values : option (gmap string Value);
  Helm_TillerNamespace : string;
}.

Record KubectlConfig : Type := {
  Manifests : option (list string);
}.

Record DeploymentConfig : Type := {
  Deployment_Name : string;
  Helm : option HelmConfig;
  Kubectl : option KubectlConfig;
}.

(** Modelled from the spec: [latest.Config] is not among the sources.
    The specification gives the typed model the sections [Dev],
    [Commands], [Hooks], [Images] and [Deployments]; the fields are those
    that the validator reads. [Images] is a Go map from image name to
    image configuration. The validator ranges over it, and Go leaves the
    order of that visit open: the field lists the entries in the order in
    which the [range] statement visits them. *)
Record Config : Type := {
  Dev : option DevConfig;
  Commands : option (list CommandConfig);
  Hooks : option (list HookConfig);
  Images : option (list (string * ImageConfig));
  Deployments : option (list DeploymentConfig);
}.

(** [config.Deployments = deployments] *)
Definition setDeployments (deployments : list DeploymentConfig) (config : Config)
  : Config :=
  {| Dev := Dev config; Commands := Commands config; Hooks := Hooks config;
     Images := Images config; Deployments := Some deployments |}.

(** Modelled from the spec: the companion state of package [generated],
    which is not among the sources, holds the name of the active profile
    (and a cache of deployment metadata that the code under verification
    does not read). *)
Record GeneratedConfig : Type := {
  ActiveProfile : string;
}.

(** ** The operating system *)

(** A file is known by what reading it as YAML gives. *)
Inductive FileEntry : Type :=
  | Unreadable
  | Malformed
  | YamlFile (doc : gmap string Value).

Record OS : Type := {
  cwd : string;
  getwdErr : option error;
  home : result string;
  files : gmap string FileEntry;
  chdirErr : string -> option error;
}.

Module constants.
(** Modelled from the spec: package [constants] is not among the
    sources. The specification has a primary config file and a legacy
    config file, each at a fixed, well-known path relative to the project
    root; their names are those of the comments and of the messages of
    the code that uses them. *)
Definition DefaultConfigPath : string := "devspace.yaml".

(** Modelled from the spec: the legacy marker, see [DefaultConfigPath]. *)
Definition DefaultConfigsPath : string := "devspace-configs.yaml".
End constants.

(** Package [path/filepath] on Unix, for paths in clean form (no [.] or
    [..] element, no doubled or trailing separator), which is what
    [os.Getwd] returns and what [Dir] and [Join] keep. *)
Module filepath.

Definition IsAbs (path : string) : bool :=
  match path with
  | String c _ => Ascii.eqb c "/"%char
  | "" => false
  end.

(** [Join] of a directory and a file name. *)
Definition Join (dir name : string) : string :=
  if decide (dir = "") then name
  else if decide (dir = ".") then name
  else if decide (dir = "/") then "/" ++ name
  else dir ++ "/" ++ name.

(** The part of [path] up to and including its last separator. *)
Fixpoint uptoLastSeparator (path : string) : option string :=
  match path with
  | "" => None
  | String c rest =>
      match uptoLastSeparator rest with
      | Some prefix => Some (String c prefix)
      | None => if Ascii.eqb c "/"%char then Some "/" else None
      end
  end.

(** [Clean] of a clean path followed by a separator. *)
Fixpoint dropTrailingSeparator (path : string) : string :=
  match path with
  | "" => ""
  | String c "" => if Ascii.eqb c "/"%char then "" else path
  | String c rest => String c (dropTrailingSeparator rest)
  end.

Definition Dir (path : string) : string :=
  match uptoLastSeparator path with
  | None => "."
  | Some prefix =>
      if decide (prefix = "/") then "/" else dropTrailingSeparator prefix
  end.

End filepath.

Module os.

Definition Getwd (o : OS) : result string :=
  match getwdErr o with
  | Some err => Err err
  | None => Ok (cwd o)
  end.

(** The file that [path] names in the current working directory. *)
Definition locate (o : OS) (path : string) : string :=
  if filepath.IsAbs path then path else filepath.Join (cwd o) path.

(** [os.Stat], of which the code only reads the error. *)
Definition Stat (o : OS) (path : string) : option error :=
  match files o !! locate o path with
  | Some _ => None
  | None => Some (Foreign ("stat " ++ path ++ ": no such file or directory"))
  end.

Definition Chdir (o : OS) (dir : string) : OS * option error :=
  match chdirErr o dir with
  | Some err => (o, Some err)
  | None =>
      ({| cwd := locate o dir; getwdErr := getwdErr o; home := home o;
          files := files o; chdirErr := chdirErr o |}, None)
  end.

(** [filepath.Abs]: fails only when the working directory is needed and
    cannot be had. *)
Definition Abs (o : OS) (path : string) : result string :=
  if filepath.IsAbs path then Ok path
  else match Getwd o with
       | Ok wd => Ok (filepath.Join wd path)
       | Err err => Err err
       end.

(** [ioutil.ReadFile] followed by [yaml.Unmarshal] into a fresh map, as
    in the body of [GetRawConfig]. *)
Definition ReadYaml (o : OS) (path : string) : result (gmap string Value) :=
  match files o !! locate o path with
  | None => Err (Foreign ("open " ++ path ++ ": no such file or directory"))
  | Some Unreadable => Err (Foreign ("read " ++ path ++ ": permission denied"))
  | Some Malformed => Err (Foreign "yaml: unmarshal errors")
  | Some (YamlFile doc) => Ok doc
  end.

End os.

Module yamlutil.

(** Modelled from the spec: [yamlutil.ReadYamlFromFile] is not among the
    sources. The specification has each value file loaded as a raw
    document, a file that cannot be read being no failure of the caller:
    the function reads the file and parses it into the map it is given,
    which the caller has just made, and returns the error of either
    step. *)
Definition ReadYamlFromFile (o : OS) (path : string) : result (gmap string Value) :=
  os.ReadYaml o path.

End yamlutil.

(** ** Package [configutil] *)

Module configutil.

(** *** Package state *)

(** The stages of a resolution. They are not data of the program: the
    field [steps] below records every stage that the program enters, so
    that "the pipeline ran" and "no stage ran again" can be stated. *)
Inductive Step : Type :=
  | StepGeneratedLoad
  | StepProfile
  | StepRawLoad
  | StepParse
  | StepValidate
  | StepGeneratedSave.

(** The package level variables: [config], [getConfigOnce] (a
    [sync.Once], of which only whether it has fired matters),
    [getConfigOnceErr], and [LoadedVars], which another file of the
    package declares. [getConfigOnceMutex] serialises the functions that
    take it, which is why they can be read as atomic state
    transformers. *)
Record Globals : Type := {
  config : option Config;
  getConfigOnce : bool;
  getConfigOnceErr : option error;
  LoadedVars : gmap string string;
  steps : list Step;
}.

Definition setConfig (c : option Config) (g : Globals) : Globals :=
  {| config := c; getConfigOnce := getConfigOnce g;
     getConfigOnceErr := getConfigOnceErr g; LoadedVars := LoadedVars g;
     steps := steps g |}.

Definition setOnce (fired : bool) (g : Globals) : Globals :=
  {| config := config g; getConfigOnce := fired;
     getConfigOnceErr := getConfigOnceErr g; LoadedVars := LoadedVars g;
     steps := steps g |}.

Definition setOnceErr (err : error) (g : Globals) : Globals :=
  {| config := config g; getConfigOnce := getConfigOnce g;
     getConfigOnceErr := Some err; LoadedVars := LoadedVars g;
     steps := steps g |}.

Definition enter (stages : list Step) (g : Globals) : Globals :=
  {| config := config g; getConfigOnce := getConfigOnce g;
     getConfigOnceErr := getConfigOnceErr g; LoadedVars := LoadedVars g;
     steps := steps g ++ stages |}.

(** ConfigOptions defines options to load the config *)
Record ConfigOptions : Type := {
  Profile : string;
  KubeContext : string;
  Options_LoadedVars : gmap string string;
  Vars : list string;
}.

(** [&ConfigOptions{}] *)
Definition newConfigOptions : ConfigOptions :=
  {| Profile := ""; KubeContext := ""; Options_LoadedVars := ∅; Vars := [] |}.

Definition setProfile (profile : string) (options : ConfigOptions) : ConfigOptions :=
  {| Profile := profile; KubeContext := KubeContext options;
     Options_LoadedVars := Options_LoadedVars options; Vars := Vars options |}.

Definition setLoadedVars (vars : gmap string string) (options : ConfigOptions)
  : ConfigOptions :=
  {| Profile := Profile options; KubeContext := KubeContext options;
     Options_LoadedVars := vars; Vars := Vars options |}.

(** What [yaml.Marshal] followed by [yaml.UnmarshalStrict] into a
    [latest.ComponentConfig] does with an override document. *)
Inductive Decoded : Type :=
  | DecodeOk
  | MarshalError (msg : string)
  | StrictError (msg : string).

(** The world outside the process: the operating system and the
    persisted state that package [generated] loads and saves. *)
Record World : Type := {
  sys : OS;
  generated_LoadConfig : string -> result GeneratedConfig;
  generated_SaveConfig : GeneratedConfig -> option error;
}.

(** *** Control flow *)

Definition isNil {A : Type} (p : option A) : bool :=
  match p with
  | None => true
  | Some _ => false
  end.

(** [check] then, unless it returned an error, [rest]. *)
Definition andThen (check rest : option error) : option error :=
  match check with
  | Some err => Some err
  | None => rest
  end.

(** [for index, x := range xs { if err := body(index, x); err != nil
    { return err } }], counting from [index]. *)
Fixpoint rangeFrom {A : Type} (body : nat -> A -> option error)
    (index : nat) (xs : list A) : option error :=
  match xs with
  | [] => None
  | x :: rest =>
      match body index x with
      | Some err => Some err
      | None => rangeFrom body (S index) rest
      end
  end.

(** The same loop over a slice that may be nil. *)
Definition range {A : Type} (xs : option (list A))
    (body : nat -> A -> option error) : option error :=
  match xs with
  | None => None
  | Some l => rangeFrom body 0 l
  end.

Section Collaborators.

(** [ParseConfig] is a function of this package in a file that is not
    among the sources, and [latest.ComponentConfig], the target of the
    strict decoding, is a type of package [latest]; both are
    parameters. [latest_New] is the model that [latest.New] builds. *)
Variable ParseConfig :
  GeneratedConfig -> gmap string Value -> ConfigOptions -> result Config.
Variable decodeComponentValues : gmap string Value -> Decoded.
Variable latest_New : Config.

(** *** The validator *)

Definition validatePort (index : nat) (port : PortForwardingConfig)
  : option error :=
  if bool_decide (Port_ImageName port = "") && isNil (Port_LabelSelector port)
  then Some (ErrorsErrorf
    ("Error in config: imageName and label selector are nil in port config at index "
       ++ fmtd index))
  else if isNil (Port_PortMappings port)
  then Some (ErrorsErrorf
    ("Error in config: portMappings is empty in port config at index "
       ++ fmtd index))
  else None.

Definition validateSync (index : nat) (sync : SyncConfig) : option error :=
  if bool_decide (Sync_ImageName sync = "") && isNil (Sync_LabelSelector sync)
  then Some (ErrorsErrorf
    ("Error in config: imageName and label selector are nil in sync config at index "
       ++ fmtd index))
  else None.

Definition validateInteractiveImage (index : nat)
    (imageConf : InteractiveImageConfig) : option error :=
  if bool_decide (InteractiveImage_Name imageConf = "")
  then Some (ErrorsErrorf
    ("Error in config: Unnamed interactive image config at index " ++ fmtd index))
  else None.

Definition validateDev (dev : option DevConfig) : option error :=
  match dev with
  | None => None
  | Some dev =>
      andThen (range (Ports dev) validatePort)
        (andThen (range (Sync dev) validateSync)
           (match Interactive dev with
            | None => None
            | Some interactive =>
                range (Interactive_Images interactive) validateInteractiveImage
            end))
  end.

Definition validateCommand (index : nat) (command : CommandConfig)
  : option error :=
  if bool_decide (Command_Name command = "")
  then Some (ErrorsErrorf ("commands[" ++ fmtd index ++ "].name is required"))
  else if bool_decide (Command_Command command = "")
  then Some (ErrorsErrorf ("commands[" ++ fmtd index ++ "].command is required"))
  else None.

Definition validateHook (index : nat) (hookConfig : HookConfig)
  : option error :=
  if bool_decide (Hook_Command hookConfig = "")
  then Some (ErrorsErrorf ("hooks[" ++ fmtd index ++ "].command is required"))
  else None.

(** [imageConf.Build != nil && imageConf.Build.Custom != nil &&
    imageConf.Build.Custom.Command == ""] *)
Definition customCommandMissing (imageConf : ImageConfig) : bool :=
  match Build imageConf with
  | None => false
  | Some build =>
      match Custom build with
      | None => false
      | Some custom => bool_decide (Custom_Command custom = "")
      end
  end.

Definition validateImage (entry : string * ImageConfig) : option error :=
  let '(imageConfigName, imageConf) := entry in
  if bool_decide (Image imageConf = "")
  then Some (ErrorsErrorf ("images." ++ imageConfigName ++ ".image is required"))
  else if customCommandMissing imageConf
  then Some (ErrorsErrorf
    ("images." ++ imageConfigName ++ ".build.custom.command is required"))
  else if bool_decide (Image imageConf = "")
  then Some (FmtErrorf ("images." ++ imageConfigName ++ ".image is required"))
  else None.

(** [(deployConfig.Helm.Chart == nil || deployConfig.Helm.Chart.Name == "")
    && (deployConfig.Helm.ComponentChart == nil ||
        *deployConfig.Helm.ComponentChart == false)] *)
Definition chartMissing (helm : HelmConfig) : bool :=
  match Chart helm with
  | None => true
  | Some chart => bool_decide (Chart_Name chart = "")
  end
  &&
  match ComponentChart helm with
  | None => true
  | Some componentChart => negb componentChart
  end.

(** [deployConfig.Helm.ComponentChart != nil &&
    *deployConfig.Helm.ComponentChart == true] *)
Definition usesComponentChart (helm : HelmConfig) : bool :=
  match ComponentChart helm with
  | Some true => true
  | _ => false
  end.

(** The loop over [deployConfig.Helm.ValuesFiles]: a file that cannot
    be read or parsed leaves [overwriteValues] as it is. *)
Fixpoint loadValuesFiles (o : OS) (index : nat) (valuesFiles : list string)
    (overwriteValues : gmap string Value) : result (gmap string Value) :=
  match valuesFiles with
  | [] => Ok overwriteValues
  | overridePath :: rest =>
      match os.Abs o overridePath with
      | Err err =>
          Err (ErrorsErrorf
            ("deployments[" ++ fmtd index
               ++ "].helm.valuesFiles: Error retrieving absolute path from "
               ++ overridePath ++ ": " ++ Error err))
      | Ok overwriteValuesPath =>
          match yamlutil.ReadYamlFromFile o overwriteValuesPath with
          | Ok overwriteValuesFromPath =>
              loadValuesFiles o index rest
                (merge.MergeInto overwriteValues overwriteValuesFromPath)
          | Err _ => loadValuesFiles o index rest overwriteValues
          end
      end
  end.

(** [overwriteValues] as it stands when it is marshalled. *)
Definition componentOverwriteValues (o : OS) (index : nat) (helm : HelmConfig)
  : result (gmap string Value) :=
  match loadValuesFiles o index (default [] (ValuesFiles helm)) ∅ with
  | Err err => Err err
  | Ok overwriteValues =>
      Ok (match Values helm with
          | Some values => merge.MergeInto overwriteValues values
          | None => overwriteValues
          end)
  end.

Definition validateComponentValues (o : OS) (index : nat) (helm : HelmConfig)
  : option error :=
  match componentOverwriteValues o index helm with
  | Err err => Some err
  | Ok overwriteValues =>
      match decodeComponentValues overwriteValues with
      | MarshalError msg =>
          Some (ErrorsErrorf
            ("deployments[" ++ fmtd index
               ++ "].helm: Error marshaling overwrite values: " ++ msg))
      | StrictError msg =>
          Some (ErrorsErrorf
            ("deployments[" ++ fmtd index
               ++ "].helm.componentChart: component values are incorrect: "
               ++ msg))
      | DecodeOk => None
      end
  end.

Definition validateDeployment (o : OS) (index : nat)
    (deployConfig : DeploymentConfig) : option error :=
  if bool_decide (Deployment_Name deployConfig = "")
  then Some (ErrorsErrorf ("deployments[" ++ fmtd index ++ "].name is required"))
  else if isNil (Helm deployConfig) && isNil (Kubectl deployConfig)
  then Some (ErrorsErrorf
    ("Please specify either helm or kubectl as deployment type in deployment "
       ++ Deployment_Name deployConfig))
  else if match Helm deployConfig with
          | Some helm => chartMissing helm
          | None => false
          end
  then Some (ErrorsErrorf
    ("deployments[" ++ fmtd index ++ "].helm.chart and deployments["
       ++ fmtd index ++ "].helm.chart.name or deployments[" ++ fmtd index
       ++ "].helm.componentChart is required"))
  else if match Kubectl deployConfig with
          | Some kubectl => isNil (Manifests kubectl)
          | None => false
          end
  then Some (ErrorsErrorf
    ("deployments[" ++ fmtd index ++ "].kubectl.manifests is required"))
  else match Helm deployConfig with
       | Some helm =>
           if usesComponentChart helm
           then validateComponentValues o index helm
           else None
       | None => None
       end.

Definition validate (o : OS) (config : Config) : option error :=
  andThen (validateDev (Dev config))
    (andThen (range (Commands config) validateCommand)
       (andThen (range (Hooks config) validateHook)
          (andThen (range (Images config) (fun _ => validateImage))
             (range (Deployments config) (validateDeployment o))))).

(** *** Locating and loading *)

(** configExistsInPath checks wheter a devspace configuration exists
    at a certain path *)
Definition configExistsInPath (g : Globals) (o : OS) (path : string) : bool :=
  if negb (isNil (config g)) then true
  else if isNil (os.Stat o (filepath.Join path constants.DefaultConfigPath))
  then true
  else if isNil (os.Stat o (filepath.Join path constants.DefaultConfigsPath))
  then true
  else false.

Definition ConfigExists (g : Globals) (o : OS) : bool :=
  configExistsInPath g o ".".

(** ResetConfig resets the current config *)
Definition ResetConfig (g : Globals) : Globals :=
  setOnce false g.

(** InitConfig initializes the config objects *)
Definition InitConfig (g : Globals) : Globals * option Config :=
  let g' :=
    if getConfigOnce g then g
    else setOnce true (setConfig (Some latest_New) g) in
  (g', config g').

(** GetRawConfig loads the raw config from a given path *)
Definition GetRawConfig (o : OS) (configPath : string)
  : result (gmap string Value) :=
  os.ReadYaml o configPath.

(** GetConfigFromPath loads the config from a given base path; the
    first component lists the stages it entered. *)
Definition GetConfigFromPath (o : OS) (generatedConfig : GeneratedConfig)
    (basePath : string) (options : option ConfigOptions)
  : list Step * result Config :=
  let options := default newConfigOptions options in
  let configPath := filepath.Join basePath constants.DefaultConfigPath in
  match os.Stat o configPath with
  | Some err =>
      match os.Stat o (filepath.Join basePath constants.DefaultConfigsPath) with
      | None =>
          ([StepRawLoad],
           Err (ErrorsErrorf
             "devspace-configs.yaml is not supported anymore in devspace v4. Please use 'profiles' in 'devspace.yaml' instead"))
      | Some _ =>
          ([StepRawLoad],
           Err (ErrorsErrorf
             ("Couldn't find '" ++ configPath ++ "': " ++ Error err)))
      end
  | None =>
      match GetRawConfig o configPath with
      | Err err => ([StepRawLoad], Err err)
      | Ok rawMap =>
          match ParseConfig generatedConfig rawMap options with
          | Err err => ([StepRawLoad; StepParse], Err err)
          | Ok loadedConfig =>
              match validate o loadedConfig with
              | Some err => ([StepRawLoad; StepParse; StepValidate], Err err)
              | None => ([StepRawLoad; StepParse; StepValidate], Ok loadedConfig)
              end
          end
      end
  end.

(** *** Memoised resolution *)

(** The profile that the function literal of [loadConfigOnce] leaves in
    [options.Profile]. *)
Definition selectProfile (allowProfile : bool) (generatedConfig : GeneratedConfig)
    (options : ConfigOptions) : ConfigOptions :=
  if allowProfile
     && negb (bool_decide (ActiveProfile generatedConfig = ""))
     && bool_decide (Profile options = "")
  then setProfile (ActiveProfile generatedConfig) options
  else if negb allowProfile
  then setProfile "" options
  else options.

(** The function literal that [loadConfigOnce] hands to
    [getConfigOnce.Do]. [options] is the object that the caller's
    pointer designates, [None] for a nil pointer; the second component
    is that object when the literal returns. With a nil pointer the
    literal works on an object of its own and the caller has none. *)
Definition loadConfig (w : World) (g : Globals) (options : option ConfigOptions)
    (allowProfile : bool) : Globals * option ConfigOptions :=
  let caller (current : ConfigOptions) : option ConfigOptions :=
    match options with
    | None => None
    | Some _ => Some current
    end in
  let opts := default newConfigOptions options in
  let g := enter [StepGeneratedLoad] g in
  match generated_LoadConfig w (Profile opts) with
  | Err err => (setOnceErr err g, caller opts)
  | Ok generatedConfig =>
      let g := enter [StepProfile] g in
      let opts := selectProfile allowProfile generatedConfig opts in
      let opts := setLoadedVars (LoadedVars g) opts in
      let '(stages, loaded) :=
        GetConfigFromPath (sys w) generatedConfig "." (Some opts) in
      let g := enter stages g in
      match loaded with
      | Err err => (setOnceErr err (setConfig None g), caller opts)
      | Ok loadedConfig =>
          let g := enter [StepGeneratedSave] (setConfig (Some loadedConfig) g) in
          match generated_SaveConfig w generatedConfig with
          | Some err => (setOnceErr err g, caller opts)
          | None => (g, caller opts)
          end
      end
  end.

(** loadConfigOnce loads the config globally once *)
Definition loadConfigOnce (w : World) (g : Globals)
    (options : option ConfigOptions) (allowProfile : bool)
  : Globals * option ConfigOptions * (option Config * option error) :=
  let '(g', options') :=
    if getConfigOnce g then (g, options)
    else
      let '(g', options') := loadConfig w g options allowProfile in
      (setOnce true g', options') in
  (g', options', (config g', getConfigOnceErr g')).

(** GetBaseConfig returns the config *)
Definition GetBaseConfig (w : World) (g : Globals) (options : option ConfigOptions) :=
  loadConfigOnce w g options false.

(** GetConfig returns the config merged with all potential overwrite files *)
Definition GetConfig (w : World) (g : Globals) (options : option ConfigOptions) :=
  loadConfigOnce w g options true.

(** *** Finding the project root *)

(** The loop of [SetDevSpaceRoot]. One unit of [fuel] is one test of
    the loop condition; [None] is running out of it. The result is the
    operating system after the call, the notes sent to the logger and
    the pair that the function returns. *)
Fixpoint searchUp (fuel : nat) (g : Globals) (o : OS)
    (homedir originalCwd cwd : string) (lastLength : nat)
  : option (OS * list string * (bool * option error)) :=
  match fuel with
  | 0 => None
  | S fuel =>
      if bool_decide (String.length cwd = lastLength)
      then Some (o, [], (false, None))
      else if negb (bool_decide (cwd = homedir)) && configExistsInPath g o cwd
      then match os.Chdir o cwd with
           | (o', Some err) => Some (o', [], (false, Some err))
           | (o', None) =>
               Some (o',
                     if bool_decide (originalCwd = cwd) then []
                     else ["Using devspace config in " ++ cwd],
                     (true, None))
           end
      else searchUp fuel g o homedir originalCwd
             (filepath.Dir cwd) (String.length cwd)
  end.

(** SetDevSpaceRoot checks the current directory and all parent
    directories for a .devspace folder with a config and sets the
    current working directory accordingly *)
Definition SetDevSpaceRoot (g : Globals) (o : OS)
  : option (OS * list string * (bool * option error)) :=
  match os.Getwd o with
  | Err err => Some (o, [], (false, Some err))
  | Ok cwd =>
      match home o with
      | Err err => Some (o, [], (false, Some err))
      | Ok homedir =>
          searchUp (S (S (String.length cwd))) g o homedir cwd cwd 0
      end
  end.

End Collaborators.

End configutil.

(** ** The helm deployment client (package [deploy/helm]) *)

Module helm.

(** DevSpaceChartConfig is the config that holds the devspace chart
    information *)
Definition DevSpaceChartConfig : ChartConfig :=
  {| Chart_Name := "component-chart";
     Chart_Version := "v0.0.6";
     Chart_RepoURL := "https://charts.devspace.cloud" |}.

Record KubeClient : Type := {
  Namespace : string;
}.

(** DeployConfig holds the information necessary to deploy via helm.
    [Client_DeploymentConfig] is a pointer to a deployment of the model: it is
    the position of that deployment in [config.Deployments], and the
    model is the store that it points into. *)
Record DeployConfig : Type := {
  Kube : KubeClient;
  TillerNamespace : string;
  Client_DeploymentConfig : nat;
}.

Definition setChart (chart : ChartConfig) (helm : HelmConfig) : HelmConfig :=
  {| Chart := Some chart; ComponentChart := ComponentChart helm;
     ValuesFiles := ValuesFiles helm; Values := Values helm;
     Helm_TillerNamespace := Helm_TillerNamespace helm |}.

Definition setHelm (helm : HelmConfig) (deployConfig : DeploymentConfig)
  : DeploymentConfig :=
  {| Deployment_Name := Deployment_Name deployConfig; Helm := Some helm;
     Kubectl := Kubectl deployConfig |}.

(** [*deployConfig], [None] when the pointer designates nothing. *)
Definition deref (config : Config) (deployConfig : nat) : option DeploymentConfig :=
  default [] (Deployments config) !! deployConfig.

(** [*deployConfig = d] *)
Definition store (config : Config) (deployConfig : nat) (d : DeploymentConfig)
  : Config :=
  match Deployments config with
  | None => config
  | Some deployments => setDeployments (<[deployConfig := d]> deployments) config
  end.

(** New creates a new helm deployment client. The result is the model
    after the call and the client; [None] is the panic of dereferencing
    a nil [deployConfig] or [deployConfig.Helm]. *)
Definition New (config : Config) (kubeClient : KubeClient) (deployConfig : nat)
  : option (Config * (DeployConfig * option error)) :=
  match deref config deployConfig with
  | None => None
  | Some d =>
      match Helm d with
      | None => None
      | Some helm =>
          let tillerNamespace :=
            if negb (bool_decide (Helm_TillerNamespace helm = ""))
            then Helm_TillerNamespace helm
            else Namespace kubeClient in
          let config :=
            if configutil.usesComponentChart helm
            then store config deployConfig (setHelm (setChart DevSpaceChartConfig helm) d)
            else config in
          Some (config,
                ({| Kube := kubeClient; TillerNamespace := tillerNamespace;
                    Client_DeploymentConfig := deployConfig |}, None))
      end
  end.

End helm.

(** ** Definitions that follow the specification *)

Module spec.

Import configutil.

(** The validator with a single test of the image reference: the
    specification asks implementers to keep one of the two tests. *)
Definition validateImageOnce (entry : string * ImageConfig) : option error :=
  let '(imageConfigName, imageConf) := entry in
  if bool_decide (Image imageConf = "")
  then Some (ErrorsErrorf ("images." ++ imageConfigName ++ ".image is required"))
  else if customCommandMissing imageConf
  then Some (ErrorsErrorf
    ("images." ++ imageConfigName ++ ".build.custom.command is required"))
  else None.

Definition validateOnce (decodeComponentValues : gmap string Value -> Decoded)
    (o : OS) (config : Config) : option error :=
  andThen (validateDev (Dev config))
    (andThen (range (Commands config) validateCommand)
       (andThen (range (Hooks config) validateHook)
          (andThen (range (Images config) (fun _ => validateImageOnce))
             (range (Deployments config)
                (validateDeployment decodeComponentValues o))))).



(** What the validator learns about a value file: whether its path can
    be made absolute and, if so, the document it holds when it can be
    read. *)
Definition valuesFile (o : OS) (overridePath : string)
  : result (option (gmap string Value)) :=
  match os.Abs o overridePath with
  | Err err => Err err
  | Ok overwriteValuesPath =>
      Ok (match yamlutil.ReadYamlFromFile o overwriteValuesPath with
          | Ok doc => Some doc
          | Err _ => None
          end)
  end.

(** The value files that a model names in deployments that opt into the
    component chart. *)
Definition valuesFilesOf (config : Config) : list string :=
  d ← default [] (Deployments config);
  match Helm d with
  | Some helm =>
      if usesComponentChart helm then default [] (ValuesFiles helm) else []
  | None => []
  end.



(** The upward walk of the root locator, started in [cwd] with
    [lastLength], comes to test directory [dir]: every directory before
    it was the home directory or held no marker. *)
Inductive climbs (g : Globals) (o : OS) (homedir : string)
  : string -> nat -> string -> Prop :=
  | climbs_here (cwd : string) (lastLength : nat) :
      String.length cwd <> lastLength ->
      climbs g o homedir cwd lastLength cwd
  | climbs_up (cwd : string) (lastLength : nat) (dir : string) :
      String.length cwd <> lastLength ->
      cwd = homedir \/ configExistsInPath g o cwd = false ->
      climbs g o homedir (filepath.Dir cwd) (String.length cwd) dir ->
      climbs g o homedir cwd lastLength dir.

(** An error result that was not built by [fmt.Errorf]. *)
Definition viaErrorsErrorf (e : option error) : Prop :=
  forall msg, e <> Some (FmtErrorf msg).

(** The stages of a resolution, in order. *)
Definition fullPipeline : list Step :=
  [StepGeneratedLoad; StepProfile; StepRawLoad; StepParse; StepValidate;
   StepGeneratedSave].


(** Modelled from the spec: [latest.ComponentConfig] is not among the
    sources. The specification has the override document decoded
    strictly into a typed schema, an unknown field or a value of the
    wrong type being a failure. A schema lists the fields it knows, each
    with the test of its type; the first offending key is reported. *)
Definition strictDecode (schema : list (string * (Value -> bool)))
    (doc : gmap string Value) : Decoded :=
  match
    omap (fun '(key, v) =>
            match list_find (fun field => bool_decide (field.1 = key)) schema with
            | None => Some ("field " ++ key ++ " not found in type latest.ComponentConfig")
            | Some (_, (_, hasType)) =>
                if hasType v then None
                else Some ("cannot unmarshal the value of " ++ key)
            end) (map_to_list doc)
  with
  | [] => DecodeOk
  | msg :: _ => StrictError msg
  end.

End spec.

(** ** Sample data *)

Module sample.

Import configutil.

Definition isInt (v : Value) : bool :=
  match v with
  | VInt _ => true
  | _ => false
  end.

Definition isString (v : Value) : bool :=
  match v with
  | VString _ => true
  | _ => false
  end.

(** A schema of two fields, enough to have documents that decode and
    documents that do not. *)
Definition decode : gmap string Value -> Decoded :=
  spec.strictDecode [("replicas", isInt); ("image", isString)].

(** A typed decoding that yields the same model for every document. *)
Definition parseTo (config : Config)
  : GeneratedConfig -> gmap string Value -> ConfigOptions -> result Config :=
  fun _ _ _ => Ok config.

Definition machine (dir : string) (fs : gmap string FileEntry) : OS :=
  {| cwd := dir; getwdErr := None; home := Ok "/home/dev"; files := fs;
     chdirErr := fun _ => None |}.

Definition emptyConfig : Config :=
  {| Dev := None; Commands := None; Hooks := None; Images := None;
     Deployments := None |}.

Definition withDeployments (deployments : list DeploymentConfig) : Config :=
  {| Dev := None; Commands := None; Hooks := None; Images := None;
     Deployments := Some deployments |}.

Definition withPorts (ports : list PortForwardingConfig) : Config :=
  {| Dev := Some {| Ports := Some ports; Sync := None; Interactive := None |};
     Commands := None; Hooks := None; Images := None; Deployments := None |}.

(** A process that has not resolved anything yet. *)
Definition cold : Globals :=
  {| config := None; getConfigOnce := false; getConfigOnceErr := None;
     LoadedVars := {[ "REGISTRY" := "registry.local" ]}; steps := [] |}.

Definition world (o : OS) (activeProfile : string) : World :=
  {| sys := o;
     generated_LoadConfig := fun _ => Ok {| ActiveProfile := activeProfile |};
     generated_SaveConfig := fun _ => None |}.

(** A world whose generated state cannot be loaded. *)
Definition brokenState (o : OS) : World :=
  {| sys := o;
     generated_LoadConfig := fun _ => Err (Foreign "generated.yaml: yaml: unmarshal errors");
     generated_SaveConfig := fun _ => None |}.

Definition emptyDoc : gmap string Value := ∅.

(** A project directory with the primary marker. *)
Definition project : OS :=
  machine "/work/app" {[ "/work/app/devspace.yaml" := YamlFile emptyDoc ]}.

(** A directory without any marker. *)
Definition bare : OS := machine "/work/app" ∅.

(** A project directory with the legacy marker only, seen from two
    levels below. *)
Definition legacy : OS :=
  machine "/work/app/src/cmd"
    {[ "/work/app/devspace-configs.yaml" := YamlFile emptyDoc ]}.

(** A deployment of the component chart with a value file and an inline
    override block. *)
Definition componentHelm : HelmConfig :=
  {| Chart := None; ComponentChart := Some true;
     ValuesFiles := Some ["values.yaml"];
     Values := Some (<["replicas" := VInt 3]> {[ "image" := VString "x" ]});
     Helm_TillerNamespace := "" |}.

Definition component : DeploymentConfig :=
  {| Deployment_Name := "backend"; Helm := Some componentHelm; Kubectl := None |}.


(** The value file holds [replicas: 1]. *)
Definition withValues : OS :=
  machine "/work/app"
    {[ "/work/app/values.yaml" := YamlFile {[ "replicas" := VInt 1 ]} ]}.



(** A deployment with both kinds configured. *)
Definition bothKinds : DeploymentConfig :=
  {| Deployment_Name := "web";
     Helm := Some {| Chart := Some {| Chart_Name := "nginx"; Chart_Version := "";
                                      Chart_RepoURL := "" |};
                     ComponentChart := None; ValuesFiles := None; Values := None;
                     Helm_TillerNamespace := "" |};
     Kubectl := Some {| Manifests := Some ["kube/web.yaml"] |} |}.

(** A deployment with no kind configured. *)
Definition noKind : DeploymentConfig :=
  {| Deployment_Name := "web"; Helm := None; Kubectl := None |}.

(** A port-forward specification whose list of port mappings is present
    and empty, as [portMappings: []] decodes. *)
Definition noMappings : PortForwardingConfig :=
  {| Port_ImageName := "app"; Port_LabelSelector := None;
     Port_PortMappings := Some [] |}.

(** Models with a single deployment. *)
Definition componentModel : Config := withDeployments [component].
Definition bothKindsModel : Config := withDeployments [bothKinds].
Definition noKindModel : Config := withDeployments [noKind].

(** A model with one port-forward specification, without mappings. *)
Definition noMappingsModel : Config := withPorts [noMappings].


Definition kube : helm.KubeClient := {| helm.Namespace := "default" |}.

(** The chart of deployment [index] of a model. *)
Definition chartOf (config : Config) (index : nat) : option ChartConfig :=
  d ← helm.deref config index; h ← Helm d; Chart h.

Definition callerOptions : ConfigOptions :=
  {| Profile := ""; KubeContext := "minikube"; Options_LoadedVars := ∅;
     Vars := ["TAG=dev"] |}.

(** The package state after a first resolution in a directory without
    marker, which fails. *)
Definition afterFailure : Globals :=
  (GetConfig (parseTo emptyConfig) decode (world bare "") cold None).1.1.

End sample.

(** ** Removing a release (package [deploy/helm], method [Delete]) *)

Module deploy.

(** [helm.Interface] of package [devspace/helm], reduced to the method
    that [Delete] calls; the response of [DeleteRelease] is dropped by the
    caller, its error is kept. *)
Record Interface : Type := {
  DeleteRelease : string -> bool -> option error;
}.

(** The two functions of package [devspace/helm] that [Delete] calls;
    the package is not among the sources and they are parameters. *)
Record Tiller : Type := {
  IsTillerDeployed : Config -> helm.KubeClient -> string -> bool;
  NewClient : Config -> helm.KubeClient -> string -> bool -> result Interface;
}.

(** [errors.Wrap(err, message)] of github.com/pkg/errors, known by the
    text of the error it builds. *)
Definition Wrap (err : error) (message : string) : error :=
  ErrorsErrorf (message ++ ": " ++ Error err).

(** What a call of [Delete] leaves: the field [d.Helm], the map
    [cache.Deployments] and the error it returns, or the panic of a nil
    dereference. *)
Inductive Outcome (V : Type) : Type :=
  | Returned (helmClient : option Interface) (deployments : gmap string V)
      (err : option error)
  | Panicked.
Arguments Returned {V} helmClient deployments err.
Arguments Panicked {V}.

(** Delete deletes the release. [config] is the model that [d.config]
    and [d.DeploymentConfig] point into, [helmClient] the field [d.Helm]
    and [deployments] the map [cache.Deployments], whose values the
    method does not read. *)
Definition Delete {V : Type} (tiller : Tiller) (config : Config)
    (d : helm.DeployConfig) (helmClient : option Interface)
    (deployments : gmap string V) : Outcome V :=
  if negb (IsTillerDeployed tiller config (helm.Kube d) (helm.TillerNamespace d))
  then Returned helmClient deployments None
  else
    match
      match helmClient with
      | Some client => Ok client
      | None => NewClient tiller config (helm.Kube d) (helm.TillerNamespace d) false
      end
    with
    | Err err => Returned None deployments (Some (Wrap err "new helm client"))
    | Ok client =>
        match helm.deref config (helm.Client_DeploymentConfig d) with
        | None => Panicked
        | Some deployConfig =>
            match DeleteRelease client (Deployment_Name deployConfig) true with
            | Some err => Returned (Some client) deployments (Some err)
            | None =>
                match Helm deployConfig with
                | None => Panicked
                | Some h =>
                    match Chart h with
                    | None => Panicked
                    | Some chart =>
                        Returned (Some client)
                          (delete (Chart_Name chart) deployments) None
                    end
                end
            end
        end
    end.

End deploy.

(** ** The command [devspace run] (package [cmd]) *)

Module cmd.

Import configutil.

(** The errors of [command.ExecuteCommand] that [RunRun] tells apart:
    the two exit statuses of the shell interpreter, and the others. *)
Inductive commandError : Type :=
  | ShellExitStatus (status : Z)
  | ExitStatus (status : Z)
  | Failed (err : error).

(** The errors that [RunRun] returns: an error passed on or built with
    [errors.New] or [errors.Wrap], or an [exit.ReturnCodeError]. *)
Inductive runError : Type :=
  | Plain (err : error)
  | ReturnCodeError (ExitCode : Z).

(** The calls with an effect outside the process. *)
Inductive Event : Type :=
  | CallSaveConfig (generatedConfig : GeneratedConfig)
  | CallExecuteCommand (name : string) (args : list string).

(** What [RunRun] does at its end: return, or panic on [args[0]]. *)
Inductive Result : Type :=
  | Returns (err : option runError)
  | Panics.

Section Collaborators.

(** [configutil.ParseCommands] and [command.ExecuteCommand] are not
    among the sources; both are parameters. *)
Variable ParseCommands :
  GeneratedConfig -> gmap string Value -> option ConfigOptions
  -> result (list CommandConfig).
Variable ExecuteCommand :
  list CommandConfig -> string -> list string -> option commandError.

(** RunRun executes the functionality "devspace run". The result is the
    operating system after the call, the calls made and what the function
    did at its end; [None] is the root locator running out of fuel. *)
Definition RunRun (g : Globals) (w : World) (args : list string)
  : option (OS * list Event * Result) :=
  match SetDevSpaceRoot g (sys w) with
  | None => None
  | Some (o, _, (_, Some err)) => Some (o, [], Returns (Some (Plain err)))
  | Some (o, _, (false, None)) =>
      Some (o, [],
            Returns (Some (Plain (ErrorsErrorf
              "Couldn't find a DevSpace configuration. Please run `devspace init`"))))
  | Some (o, _, (true, None)) =>
      match os.ReadYaml o constants.DefaultConfigPath with
      | Err err => Some (o, [], Returns (Some (Plain err)))
      | Ok rawMap =>
          match generated_LoadConfig w "" with
          | Err err => Some (o, [], Returns (Some (Plain err)))
          | Ok generatedConfig =>
              match ParseCommands generatedConfig rawMap None with
              | Err err => Some (o, [], Returns (Some (Plain err)))
              | Ok commands =>
                  match generated_SaveConfig w generatedConfig with
                  | Some err =>
                      Some (o, [CallSaveConfig generatedConfig],
                            Returns (Some (Plain err)))
                  | None =>
                      match args with
                      | [] => Some (o, [CallSaveConfig generatedConfig], Panics)
                      | name :: rest =>
                          Some (o,
                                [CallSaveConfig generatedConfig;
                                 CallExecuteCommand name rest],
                                Returns
                                  match ExecuteCommand commands name rest with
                                  | None => None
                                  | Some (ShellExitStatus status) =>
                                      Some (ReturnCodeError status)
                                  | Some (ExitStatus status) =>
                                      Some (ReturnCodeError status)
                                  | Some (Failed err) =>
                                      Some (Plain (deploy.Wrap err "execute command"))
                                  end)
                      end
                  end
              end
          end
      end
  end.

End Collaborators.

End cmd.

(** ** The rules of the validator, as properties of a model *)

Module rules.

Import configutil.

(** Every entry of a slice, with its index. *)
Definition each {A : Type} (xs : option (list A)) (P : nat -> A -> Prop) : Prop :=
  forall i x, default [] xs !! i = Some x -> P i x.

Definition portOk (port : PortForwardingConfig) : Prop :=
  (Port_ImageName port <> "" \/ Port_LabelSelector port <> None)
  /\ Port_PortMappings port <> None.

Definition syncOk (sync : SyncConfig) : Prop :=
  Sync_ImageName sync <> "" \/ Sync_LabelSelector sync <> None.

Definition commandOk (command : CommandConfig) : Prop :=
  Command_Name command <> "" /\ Command_Command command <> "".


(** A helm deployment names a chart or opts into the component chart. *)
Definition helmOk (h : HelmConfig) : Prop :=
  usesComponentChart h = true
  \/ exists chart, Chart h = Some chart /\ Chart_Name chart <> "".

Definition deploymentOk (decodeComponentValues : gmap string Value -> Decoded)
    (o : OS) (index : nat) (d : DeploymentConfig) : Prop :=
  Deployment_Name d <> ""
  /\ (Helm d <> None \/ Kubectl d <> None)
  /\ (forall h, Helm d = Some h -> helmOk h)
  /\ (forall kubectl, Kubectl d = Some kubectl -> Manifests kubectl <> None)
  /\ (forall h, Helm d = Some h -> usesComponentChart h = true ->
        validateComponentValues decodeComponentValues o index h = None).

Definition devOk (dev : DevConfig) : Prop :=
  each (Ports dev) (fun _ => portOk)
  /\ each (Sync dev) (fun _ => syncOk)
  /\ forall interactive,
       Interactive dev = Some interactive ->
       each (Interactive_Images interactive)
         (fun _ imageConf => InteractiveImage_Name imageConf <> "").


(** [config.Images = images] and [config.Commands = commands] *)
Definition setImages (images : list (string * ImageConfig)) (config : Config)
  : Config :=
  {| Dev := Dev config; Commands := Commands config; Hooks := Hooks config;
     Images := Some images; Deployments := Deployments config |}.

End rules.

(** ** More sample data *)

Module sample2.

Import configutil.

(** A model with two commands, the second without command line, a hook
    and an image. *)
Definition scripted : Config :=
  {| Dev := None;
     Commands := Some [ {| Command_Name := "build"; Command_Command := "make" |};
                        {| Command_Name := "test"; Command_Command := "" |} ];
     Hooks := Some [ {| Hook_Command := "echo" |} ];
     Images := Some [ ("app", {| Image := "registry.local/app"; Build := None |}) ];
     Deployments := None |}.

(** A model without violation: a port-forward specification, a command,
    two images and the component deployment. *)
Definition valid : Config :=
  {| Dev := Some {| Ports := Some [ {| Port_ImageName := "app";
                                       Port_LabelSelector := None;
                                       Port_PortMappings := Some [] |} ];
                    Sync := None; Interactive := None |};
     Commands := Some [ {| Command_Name := "build"; Command_Command := "make" |} ];
     Hooks := None;
     Images := Some [ ("app", {| Image := "registry.local/app"; Build := None |});
                      ("db", {| Image := "registry.local/db"; Build := None |}) ];
     Deployments := Some [ sample.component ] |}.

(** A tiller that is deployed and hands out a client that deletes every
    release, and one that is not deployed. *)
Definition obliging : deploy.Interface :=
  {| deploy.DeleteRelease := fun _ _ => None |}.

Definition deployed : deploy.Tiller :=
  {| deploy.IsTillerDeployed := fun _ _ _ => true;
     deploy.NewClient := fun _ _ _ _ => Ok obliging |}.

(** A cache with an entry under the name of the deployment and one under
    the name of the component chart. *)
Definition cache : gmap string nat :=
  <["backend" := 1]> {[ "component-chart" := 2 ]}.

(** A tiller that is not deployed. *)
Definition absent : deploy.Tiller :=
  {| deploy.IsTillerDeployed := fun _ _ _ => false;
     deploy.NewClient := fun _ _ _ _ => Ok obliging |}.

(** The client that [New] constructs for the deployment of
    [sample.componentModel], and the model that it leaves. *)
Definition client : helm.DeployConfig :=
  {| helm.Kube := sample.kube; helm.TillerNamespace := "default";
     helm.Client_DeploymentConfig := 0 |}.

Definition exchanged : Config :=
  sample.withDeployments
    [ helm.setHelm (helm.setChart helm.DevSpaceChartConfig sample.componentHelm)
        sample.component ].

(** The project directory of [sample.project], seen from two levels
    below. *)
Definition nested : OS :=
  sample.machine "/work/app/src/cmd"
    {[ "/work/app/devspace.yaml" := YamlFile sample.emptyDoc ]}.

(** No marker anywhere above the working directory. *)
Definition unmarked : OS := sample.machine "/work/app" ∅.

(** A process that holds a model. *)
Definition loaded : Globals :=
  {| config := Some sample.emptyConfig; getConfigOnce := true;
     getConfigOnceErr := None; LoadedVars := ∅; steps := [] |}.

(** Options that name a profile. *)
Definition namedOptions : ConfigOptions :=
  {| Profile := "production"; KubeContext := ""; Options_LoadedVars := ∅;
     Vars := [] |}.

(** A first resolution in the project directory. *)
Definition resolved
  : Globals * option ConfigOptions * (option Config * option error) :=
  GetConfig (sample.parseTo sample.emptyConfig) sample.decode
    (sample.world sample.project "") sample.cold None.

(** A parser of commands that yields the commands of [scripted], and a
    shell in which every command exits with status 3. *)
Definition parseCommands
  : GeneratedConfig -> gmap string Value -> option ConfigOptions
    -> result (list CommandConfig) :=
  fun _ _ _ => Ok (default [] (Commands scripted)).

Definition exits3 : list CommandConfig -> string -> list string
                    -> option cmd.commandError :=
  fun _ _ _ => Some (cmd.ShellExitStatus 3).

End sample2.

(** * Properties *)

Import configutil.

(** ** Merging override documents *)

Lemma MergeValue_eq (destVal srcVal : Value) :
  merge.MergeValue destVal srcVal =
  match destVal, srcVal with
  | VMap dest, VMap src => VMap (merge.MergeInto dest src)
  | _, _ => srcVal
  end.
Proof. destruct srcVal, destVal; reflexivity. Qed.


(** Key by key description of a merge. *)
Lemma lookup_MergeInto (v src : gmap string Value) (key : string) :
  merge.MergeInto v src !! key =
  match src !! key with
  | Some srcVal =>
      Some (match v !! key with
            | Some destVal => merge.MergeValue destVal srcVal
            | None => srcVal
            end)
  | None => v !! key
  end.
Proof.
  unfold merge.MergeInto.
  induction src as [|k x src Hk Hfold IH] using map_first_key_ind.
  - by rewrite map_fold_empty, lookup_empty.
  - rewrite map_fold_insert_first_key by done.
    destruct (decide (k = key)) as [->|Hne].
    + rewrite lookup_insert_eq.
      assert (map_fold (fun key srcVal v0 =>
                match v0 !! key with
                | Some destVal => <[key := merge.MergeValue destVal srcVal]> v0
                | None => <[key := srcVal]> v0
                end) v src !! key = v !! key) as Hsame
        by (rewrite IH, Hk; done).
      destruct (map_fold _ v src !! key) eqn:Hacc;
        rewrite lookup_insert_eq; rewrite <- Hsame; done.
    + rewrite lookup_insert_ne by done.
      destruct (map_fold _ v src !! k);
        rewrite lookup_insert_ne by done; apply IH.
Qed.


(** Keys that the source does not have keep their value. *)
Lemma MergeInto_other_keys (v src : gmap string Value) (key : string) :
  src !! key = None ->
  merge.MergeInto v src !! key = v !! key.
Proof. intros Hsrc. by rewrite lookup_MergeInto, Hsrc. Qed.

Lemma MergeInto_empty_r (v : gmap string Value) : merge.MergeInto v ∅ = v.
Proof. apply map_eq; intros key. by rewrite lookup_MergeInto, lookup_empty. Qed.

Lemma MergeInto_empty_l (src : gmap string Value) : merge.MergeInto ∅ src = src.
Proof.
  apply map_eq; intros key. rewrite lookup_MergeInto, lookup_empty.
  by destruct (src !! key).
Qed.

(** ** Loops that return at the first error *)

Section RangeLoops.

Context {A : Type}.
Implicit Types (body : nat -> A -> option error) (xs ys : list A).

Lemma rangeFrom_app body index xs ys :
  rangeFrom body index (xs ++ ys) =
  andThen (rangeFrom body index xs) (rangeFrom body (index + length xs) ys).
Proof.
  revert index. induction xs as [|x xs IH]; intros index; simpl.
  - by rewrite Nat.add_0_r.
  - destruct (body index x); [done|].
    rewrite IH. by rewrite Nat.add_succ_r.
Qed.



(** An entry that the body rejects makes the loop return an error: that
    of the entry, or of an earlier one. *)
Lemma rangeFrom_rejects body index xs i x :
  xs !! i = Some x ->
  is_Some (body (index + i) x) ->
  is_Some (rangeFrom body index xs).
Proof.
  revert index i. induction xs as [|y xs IH]; intros index i Hi Hbody; [done|].
  simpl. destruct (body index y) as [err|] eqn:Hy; [by eexists|].
  destruct i as [|i]; simplify_eq/=.
  - rewrite Nat.add_0_r, Hy in Hbody. by destruct Hbody.
  - apply (IH (S index) i); [done|]. by rewrite Nat.add_succ_comm.
Qed.

(** A loop that finds nothing has a body that accepts every entry. *)
Lemma rangeFrom_accepts body index xs i x :
  rangeFrom body index xs = None ->
  xs !! i = Some x ->
  body (index + i) x = None.
Proof.
  intros Hloop Hi.
  destruct (body (index + i) x) as [err|] eqn:Hbody; [|done].
  destruct (rangeFrom_rejects body index xs i x Hi) as [err' Herr'];
    [by eexists | congruence].
Qed.

Lemma rangeFrom_ext body body' index xs :
  (forall i x, xs !! i = Some x -> body (index + i) x = body' (index + i) x) ->
  rangeFrom body index xs = rangeFrom body' index xs.
Proof.
  revert index. induction xs as [|x xs IH]; intros index Hext; [done|].
  pose proof (Hext 0 x eq_refl) as Hx. rewrite Nat.add_0_r in Hx.
  simpl. rewrite <- Hx. destruct (body index x); [done|].
  apply IH; intros i y Hi. rewrite Nat.add_succ_comm. by apply (Hext (S i)).
Qed.

Lemma range_ext (l : option (list A)) body body' :
  (forall i x, default [] l !! i = Some x -> body i x = body' i x) ->
  range l body = range l body'.
Proof.
  destruct l as [xs|]; [|done]. intros Hext. by apply rangeFrom_ext.
Qed.

End RangeLoops.


(** ** The validator *)

Section Validator.

Variable decode : gmap string Value -> Decoded.

Lemma validateImage_once (entry : string * ImageConfig) :
  validateImage entry = spec.validateImageOnce entry.
Proof.
  destruct entry as [imageConfigName imageConf].
  unfold validateImage, spec.validateImageOnce.
  case_bool_decide; [done|]. by destruct (customCommandMissing imageConf).
Qed.

Lemma validate_once (o : OS) (config : Config) :
  validate decode o config = spec.validateOnce decode o config.
Proof.
  unfold validate, spec.validateOnce. do 3 f_equal.
  f_equal. apply range_ext; intros _ entry _. apply validateImage_once.
Qed.

(** An error of a loop is an error of its body. *)
Lemma rangeFrom_error {A : Type} (body : nat -> A -> option error)
    (index : nat) (xs : list A) (err : error) :
  rangeFrom body index xs = Some err ->
  exists i x, xs !! i = Some x /\ body (index + i) x = Some err.
Proof.
  revert index. induction xs as [|x xs IH]; intros index Hloop; [done|].
  simpl in Hloop. destruct (body index x) as [err'|] eqn:Hx.
  - exists 0, x. rewrite Nat.add_0_r. by simplify_eq.
  - destruct (IH _ Hloop) as (i & y & Hi & Hy).
    exists (S i), y. by rewrite <- Nat.add_succ_comm.
Qed.

Lemma range_error {A : Type} (l : option (list A))
    (body : nat -> A -> option error) (err : error) :
  range l body = Some err ->
  exists i x, body i x = Some err.
Proof.
  destruct l as [xs|]; [|done]. intros Hloop.
  destruct (rangeFrom_error _ _ _ _ Hloop) as (i & x & _ & Hbody). eauto.
Qed.

Lemma loadValuesFiles_error (o : OS) (index : nat) (valuesFiles : list string)
    (overwriteValues : gmap string Value) (err : error) :
  loadValuesFiles o index valuesFiles overwriteValues = Err err ->
  exists msg, err = ErrorsErrorf msg.
Proof.
  revert overwriteValues.
  induction valuesFiles as [|overridePath rest IH]; intros overwriteValues; [done|].
  simpl. destruct (os.Abs o overridePath); [|intros; simplify_eq; eauto].
  destruct (yamlutil.ReadYamlFromFile o a); apply IH.
Qed.

Lemma validateDeployment_viaErrorsErrorf (o : OS) (index : nat)
    (deployConfig : DeploymentConfig) :
  spec.viaErrorsErrorf (validateDeployment decode o index deployConfig).
Proof.
  assert (forall helm, spec.viaErrorsErrorf (validateComponentValues decode o index helm))
    as Hcomponent.
  { intros helm msg. unfold validateComponentValues, componentOverwriteValues.
    destruct (loadValuesFiles _ _ _ _) as [v|err] eqn:Hload.
    - by destruct (decode _).
    - by destruct (loadValuesFiles_error _ _ _ _ _ Hload) as [msg' ->]. }
  intros msg. unfold validateDeployment.
  repeat (case_match; try done); apply Hcomponent.
Qed.

Ltac errors_of_body :=
  match goal with
  | H : range _ _ = Some _ |- _ =>
      apply range_error in H as (? & ? & H)
  end.

Lemma validateOnce_viaErrorsErrorf (o : OS) (config : Config) :
  spec.viaErrorsErrorf (spec.validateOnce decode o config).
Proof.
  intros msg Hvalidate. unfold spec.validateOnce, validateDev, andThen in Hvalidate.
  repeat case_match; simplify_eq; errors_of_body.
  all: try (by apply validateDeployment_viaErrorsErrorf in Hvalidate).
  all: unfold validatePort, validateSync, validateInteractiveImage,
         validateCommand, validateHook, spec.validateImageOnce in *.
  all: repeat case_match; simplify_eq.
Qed.

(** C9. The second test of [imageConf.Image == ""] in the loop over
    [config.Images] is redundant: on every model the validator returns
    what the validator with that test removed returns, and it never
    returns the error that the second test builds with [fmt.Errorf]:
    the first test of the same condition has already returned. *)
Theorem validate_second_image_check_redundant (o : OS) (config : Config) :
  validate decode o config = spec.validateOnce decode o config
  /\ forall msg, validate decode o config <> Some (FmtErrorf msg).
Proof.
  split; [apply validate_once|].
  rewrite validate_once. apply validateOnce_viaErrorsErrorf.
Qed.

End Validator.

(** ** What the validator reads *)

Section ValidatorFrame.

Variable decode : gmap string Value -> Decoded.



(** One turn of the loop over the value files, by what the file is. *)
Lemma loadValuesFiles_cons (o : OS) (index : nat) (overridePath : string)
    (rest : list string) (overwriteValues : gmap string Value) :
  loadValuesFiles o index (overridePath :: rest) overwriteValues =
  match spec.valuesFile o overridePath with
  | Err err =>
      Err (ErrorsErrorf
        ("deployments[" ++ fmtd index
           ++ "].helm.valuesFiles: Error retrieving absolute path from "
           ++ overridePath ++ ": " ++ Error err))
  | Ok (Some doc) =>
      loadValuesFiles o index rest (merge.MergeInto overwriteValues doc)
  | Ok None => loadValuesFiles o index rest overwriteValues
  end.
Proof.
  simpl. unfold spec.valuesFile.
  destruct (os.Abs o overridePath) as [path|err]; [|done].
  by destruct (yamlutil.ReadYamlFromFile o path).
Qed.

Lemma loadValuesFiles_frame (o1 o2 : OS) (index : nat)
    (valuesFiles : list string) (overwriteValues : gmap string Value) :
  (forall path, path ∈ valuesFiles ->
                spec.valuesFile o1 path = spec.valuesFile o2 path) ->
  loadValuesFiles o1 index valuesFiles overwriteValues =
  loadValuesFiles o2 index valuesFiles overwriteValues.
Proof.
  revert overwriteValues.
  induction valuesFiles as [|overridePath rest IH]; intros overwriteValues Hsame;
    [done|].
  rewrite !loadValuesFiles_cons, (Hsame overridePath) by left.
  destruct (spec.valuesFile o2 overridePath) as [[doc|]|err]; [| |done];
    apply IH; intros path Hpath; apply Hsame; by right.
Qed.

Lemma validateDeployment_frame (o1 o2 : OS) (index : nat)
    (deployConfig : DeploymentConfig) :
  (forall helm path,
      Helm deployConfig = Some helm ->
      usesComponentChart helm = true ->
      path ∈ default [] (ValuesFiles helm) ->
      spec.valuesFile o1 path = spec.valuesFile o2 path) ->
  validateDeployment decode o1 index deployConfig =
  validateDeployment decode o2 index deployConfig.
Proof.
  intros Hsame. unfold validateDeployment.
  destruct (Helm deployConfig) as [helm|]; [|done].
  destruct (usesComponentChart helm) eqn:Huses; [|done].
  unfold validateComponentValues, componentOverwriteValues.
  rewrite (loadValuesFiles_frame o1 o2); [done|].
  intros path Hpath. by apply (Hsame helm).
Qed.

Lemma elem_of_valuesFilesOf (config : Config) (path : string) :
  path ∈ spec.valuesFilesOf config <->
  exists d helm,
    d ∈ default [] (Deployments config) /\ Helm d = Some helm
    /\ usesComponentChart helm = true /\ path ∈ default [] (ValuesFiles helm).
Proof.
  unfold spec.valuesFilesOf. rewrite list_elem_of_bind. split.
  - intros (d & Hpath & Hd). destruct (Helm d) as [helm|] eqn:Hhelm.
    + destruct (usesComponentChart helm) eqn:Huses.
      * by exists d, helm.
      * by apply elem_of_nil in Hpath.
    + by apply elem_of_nil in Hpath.
  - intros (d & helm & Hd & Hhelm & Huses & Hpath).
    exists d. by rewrite Hhelm, Huses.
Qed.

(** Two file systems that agree on the value files of a model give the
    same result. *)
Lemma validate_frame (o1 o2 : OS) (config : Config) :
  (forall path, path ∈ spec.valuesFilesOf config ->
                spec.valuesFile o1 path = spec.valuesFile o2 path) ->
  validate decode o1 config = validate decode o2 config.
Proof.
  intros Hsame. unfold validate. do 4 f_equal.
  apply range_ext; intros index d Hd.
  apply validateDeployment_frame; intros helm path Hhelm Huses Hpath.
  apply Hsame, elem_of_valuesFilesOf. exists d, helm.
  split; [|done]. by eapply list_elem_of_lookup_2.
Qed.

(** A model without value files is validated without reading a file. *)
Corollary validate_without_values_files (o1 o2 : OS) (config : Config) :
  spec.valuesFilesOf config = [] ->
  validate decode o1 config = validate decode o2 config.
Proof.
  intros Hnone. apply validate_frame.
  rewrite Hnone. intros path Hpath. by apply elem_of_nil in Hpath.
Qed.


End ValidatorFrame.



(** ** Deployments and port-forward specifications *)

Section ValidatorRules.

Variable decode : gmap string Value -> Decoded.

Lemma validate_deployments (o : OS) (config : Config) :
  validate decode o config =
  andThen (validate decode o (setDeployments [] config))
    (range (Deployments config) (validateDeployment decode o)).
Proof.
  unfold validate, andThen; simpl.
  destruct (validateDev (Dev config)); [done|].
  destruct (range (Commands config) validateCommand); [done|].
  destruct (range (Hooks config) validateHook); [done|].
  by destruct (range (Images config) _).
Qed.

(** A model is rejected as soon as one of its deployments is. *)
Lemma validate_rejects_deployment (o : OS) (config : Config)
    (deployments : list DeploymentConfig) (index : nat) (d : DeploymentConfig) :
  Deployments config = Some deployments ->
  deployments !! index = Some d ->
  is_Some (validateDeployment decode o index d) ->
  is_Some (validate decode o config).
Proof.
  intros Hdeployments Hindex Hd. rewrite validate_deployments, Hdeployments.
  destruct (validate decode o (setDeployments [] config)); [by eexists|].
  simpl. by apply (rangeFrom_rejects _ 0 deployments index d).
Qed.

(** When everything before deployment [index] passes, the validator
    returns what the rules say of that deployment, if they object. *)
Lemma validate_first_deployment (o : OS) (config : Config)
    (deployments : list DeploymentConfig) (index : nat) (d : DeploymentConfig)
    (err : error) :
  Deployments config = Some deployments ->
  deployments !! index = Some d ->
  validate decode o (setDeployments (take index deployments) config) = None ->
  validateDeployment decode o index d = Some err ->
  validate decode o config = Some err.
Proof.
  intros Hdeployments Hindex Hbefore Hd.
  rewrite validate_deployments in Hbefore. rewrite validate_deployments.
  simpl in Hbefore. change (setDeployments [] (setDeployments _ config))
    with (setDeployments [] config) in Hbefore.
  destruct (validate decode o (setDeployments [] config)); [done|].
  simpl in *. rewrite Hdeployments; simpl.
  rewrite <- (take_drop_middle deployments index d Hindex).
  rewrite rangeFrom_app, Hbefore; simpl.
  rewrite length_take_le by (apply Nat.lt_le_incl; by eapply lookup_lt_Some).
  by rewrite Hd.
Qed.

Lemma validateDeployment_no_kind (o : OS) (index : nat) (d : DeploymentConfig) :
  Helm d = None ->
  Kubectl d = None ->
  validateDeployment decode o index d =
  Some (ErrorsErrorf
    (if bool_decide (Deployment_Name d = "")
     then "deployments[" ++ fmtd index ++ "].name is required"
     else "Please specify either helm or kubectl as deployment type in deployment "
            ++ Deployment_Name d)).
Proof.
  intros Hhelm Hkubectl. unfold validateDeployment.
  rewrite Hhelm, Hkubectl. by case_bool_decide.
Qed.

(** Both kinds at once are no violation: a deployment that names a
    chart and lists manifests passes. *)
Lemma validateDeployment_both_kinds (o : OS) (index : nat) (d : DeploymentConfig)
    (helm : HelmConfig) (kubectl : KubectlConfig) :
  Deployment_Name d <> "" ->
  Helm d = Some helm ->
  Kubectl d = Some kubectl ->
  chartMissing helm = false ->
  usesComponentChart helm = false ->
  Manifests kubectl <> None ->
  validateDeployment decode o index d = None.
Proof.
  intros Hname Hhelm Hkubectl Hchart Huses Hmanifests. unfold validateDeployment.
  rewrite bool_decide_eq_false_2, Hhelm, Hkubectl, Hchart, Huses by done.
  simpl. by destruct (Manifests kubectl).
Qed.

(** C4, as amended. A model with a deployment for which neither helm
    nor kubectl is set is rejected, and when nothing before that
    deployment is in violation the error names the deployment by its
    name. (That both kinds are set is not tested.) *)
Theorem validate_deployment_without_kind (o : OS) (config : Config)
    (deployments : list DeploymentConfig) (index : nat) (d : DeploymentConfig) :
  Deployments config = Some deployments ->
  deployments !! index = Some d ->
  Helm d = None ->
  Kubectl d = None ->
  is_Some (validate decode o config)
  /\ (Deployment_Name d <> "" ->
      validate decode o (setDeployments (take index deployments) config) = None ->
      validate decode o config =
      Some (ErrorsErrorf
        ("Please specify either helm or kubectl as deployment type in deployment "
           ++ Deployment_Name d))).
Proof.
  intros Hdeployments Hindex Hhelm Hkubectl.
  pose proof (validateDeployment_no_kind o index d Hhelm Hkubectl) as Hd.
  split.
  - eapply validate_rejects_deployment; [done..|]. rewrite Hd. by eexists.
  - intros Hname Hbefore. eapply validate_first_deployment; [done..|].
    by rewrite Hd, bool_decide_eq_false_2.
Qed.

(** The rules on a port-forward specification that the code enforces. *)
Lemma validatePort_accepts (index : nat) (port : PortForwardingConfig) :
  validatePort index port = None <->
  (Port_ImageName port <> "" \/ Port_LabelSelector port <> None)
  /\ Port_PortMappings port <> None.
Proof.
  unfold validatePort.
  case_bool_decide as Hname; destruct (Port_LabelSelector port);
    destruct (Port_PortMappings port); simpl; intuition congruence.
Qed.

(** C5. The validator accepts a port-forward specification whose list
    of port mappings is present and empty: the test is
    [port.PortMappings == nil], while its message reads "portMappings is
    empty". *)
Theorem validate_accepts_empty_port_mappings (o : OS) :
  Port_PortMappings sample.noMappings = Some []
  /\ validatePort 0 sample.noMappings = None
  /\ validate decode o sample.noMappingsModel = None.
Proof. by vm_compute. Qed.

End ValidatorRules.

(** C4, as stated, fails: a deployment that has both kinds set passes,
    and the error for a deployment without kind carries its name, not its
    index. *)
Lemma validate_accepts_both_kinds :
  Helm sample.bothKinds <> None
  /\ Kubectl sample.bothKinds <> None
  /\ validate sample.decode sample.bare sample.bothKindsModel = None
  /\ validate sample.decode sample.bare sample.noKindModel
       = Some (ErrorsErrorf
           "Please specify either helm or kubectl as deployment type in deployment web").
Proof. vm_compute. repeat split; congruence. Qed.

Lemma validate_deployment_without_kind_witness :
  Deployments sample.noKindModel = Some [sample.noKind]
  /\ [sample.noKind] !! 0 = Some sample.noKind
  /\ Helm sample.noKind = None
  /\ Kubectl sample.noKind = None
  /\ is_Some (validate sample.decode sample.bare sample.noKindModel)
  /\ (Deployment_Name sample.noKind <> "" ->
      validate sample.decode sample.bare
        (setDeployments (take 0 [sample.noKind]) sample.noKindModel) = None ->
      validate sample.decode sample.bare sample.noKindModel =
      Some (ErrorsErrorf
        ("Please specify either helm or kubectl as deployment type in deployment "
           ++ Deployment_Name sample.noKind))).
Proof.
  repeat (split; [reflexivity|]).
  exact (validate_deployment_without_kind sample.decode sample.bare
           sample.noKindModel [sample.noKind] 0 sample.noKind
           eq_refl eq_refl eq_refl eq_refl).
Defined.

(** ** Chart-value reconciliation *)

Section Reconciliation.

Variable decode : gmap string Value -> Decoded.



(** A value file that cannot be read, or does not parse, changes
    nothing. *)
Lemma loadValuesFiles_skips_unreadable (o : OS) (index : nat)
    (overridePath overwriteValuesPath : string) (rest : list string)
    (overwriteValues : gmap string Value) (err : error) :
  os.Abs o overridePath = Ok overwriteValuesPath ->
  yamlutil.ReadYamlFromFile o overwriteValuesPath = Err err ->
  loadValuesFiles o index (overridePath :: rest) overwriteValues =
  loadValuesFiles o index rest overwriteValues.
Proof. intros Habs Hread. simpl. by rewrite Habs, Hread. Qed.



(** The validator reaches the reconciliation for every deployment of
    the component chart that passes the tests before it. *)
Lemma validateDeployment_component (o : OS) (index : nat) (d : DeploymentConfig)
    (helm : HelmConfig) :
  Deployment_Name d <> "" ->
  Helm d = Some helm ->
  usesComponentChart helm = true ->
  (forall kubectl, Kubectl d = Some kubectl -> Manifests kubectl <> None) ->
  validateDeployment decode o index d = validateComponentValues decode o index helm.
Proof.
  intros Hname Hhelm Huses Hkubectl. unfold validateDeployment.
  rewrite bool_decide_eq_false_2, Hhelm, Huses by done. simpl.
  assert (chartMissing helm = false) as ->.
  { unfold chartMissing, usesComponentChart in *.
    destruct (ComponentChart helm) as [[]|]; try done. apply andb_false_r. }
  destruct (Kubectl d) as [kubectl|]; [|done].
  specialize (Hkubectl kubectl eq_refl). by destruct (Manifests kubectl).
Qed.

End Reconciliation.


(** ** Memoised resolution *)

#[local] Open Scope list_scope.

Section Resolver.

Variable ParseConfig :
  GeneratedConfig -> gmap string Value -> ConfigOptions -> result Config.
Variable decode : gmap string Value -> Decoded.

Abbreviation loadConfig := (loadConfig ParseConfig decode).
Abbreviation loadConfigOnce := (loadConfigOnce ParseConfig decode).
Abbreviation GetConfigFromPath := (GetConfigFromPath ParseConfig decode).

(** The stages that [GetConfigFromPath] enters are the first ones of
    raw load, parse and validate, and all three when it succeeds. *)
Lemma GetConfigFromPath_stages (o : OS) (generatedConfig : GeneratedConfig)
    (basePath : string) (options : option ConfigOptions) :
  exists n,
    0 < n <= 3
    /\ (GetConfigFromPath o generatedConfig basePath options).1
         = take n [StepRawLoad; StepParse; StepValidate]
    /\ ((exists loadedConfig,
           (GetConfigFromPath o generatedConfig basePath options).2 = Ok loadedConfig) ->
        n = 3).
Proof.
  unfold configutil.GetConfigFromPath.
  destruct (os.Stat o _).
  { destruct (os.Stat o _); exists 1; (split; [lia|]); (split; [done|]);
      by intros [? ?]. }
  destruct (GetRawConfig o _) as [rawMap|].
  2: { exists 1; split; [lia|]; split; [done|]; by intros [? ?]. }
  destruct (ParseConfig _ _ _) as [loadedConfig|].
  2: { exists 2; split; [lia|]; split; [done|]; by intros [? ?]. }
  destruct (validate decode o loadedConfig); exists 3; repeat split; done || lia.
Qed.


(** Once the [sync.Once] has fired, a call returns what the package
    variables hold and touches neither them nor the options. *)
Lemma loadConfigOnce_fired (w : World) (g : Globals)
    (options : option ConfigOptions) (allowProfile : bool) :
  getConfigOnce g = true ->
  loadConfigOnce w g options allowProfile =
  (g, options, (config g, getConfigOnceErr g)).
Proof. intros Hfired. unfold configutil.loadConfigOnce. by rewrite Hfired. Qed.

Lemma loadConfigOnce_cold (w : World) (g : Globals)
    (options : option ConfigOptions) (allowProfile : bool) :
  getConfigOnce g = false ->
  loadConfigOnce w g options allowProfile =
  (setOnce true (loadConfig w g options allowProfile).1,
   (loadConfig w g options allowProfile).2,
   (config (loadConfig w g options allowProfile).1,
    getConfigOnceErr (loadConfig w g options allowProfile).1)).
Proof.
  intros Hcold. unfold configutil.loadConfigOnce. rewrite Hcold.
  by destruct (loadConfig w g options allowProfile).
Qed.



(** [InitConfig] fires the same [sync.Once]: after it, a call returns
    the model that [latest.New] built and enters no stage, which is why
    the cache has to be cold for the first call to resolve. *)
Lemma InitConfig_fires_once (latest_New : Config) (w : World) (g : Globals)
    (options : option ConfigOptions) (allowProfile : bool) :
  getConfigOnce g = false ->
  loadConfigOnce w (InitConfig latest_New g).1 options allowProfile =
  ((InitConfig latest_New g).1, options, (Some latest_New, getConfigOnceErr g)).
Proof.
  intros Hcold. unfold InitConfig. rewrite Hcold. by rewrite loadConfigOnce_fired.
Qed.

(** *** Reset *)

Lemma ResetConfig_cold (g : Globals) :
  getConfigOnce (ResetConfig g) = false
  /\ config (ResetConfig g) = config g
  /\ getConfigOnceErr (ResetConfig g) = getConfigOnceErr g.
Proof. done. Qed.

(** No stage of the pipeline clears [getConfigOnceErr]. *)
Lemma loadConfig_keeps_error (w : World) (g : Globals)
    (options : option ConfigOptions) (allowProfile : bool) :
  is_Some (getConfigOnceErr g) ->
  is_Some (getConfigOnceErr (loadConfig w g options allowProfile).1).
Proof.
  intros Hrecorded. unfold configutil.loadConfig.
  destruct (generated_LoadConfig w _); [|by eexists].
  destruct (GetConfigFromPath _ _ _ _) as [stages [loadedConfig|err]]; [|by eexists].
  by destruct (generated_SaveConfig w _); [eexists|].
Qed.

(** An error that a resolution recorded is returned by every later
    call, reset or not, until another error replaces it. *)
Lemma recorded_error_survives_reset (w : World) (g : Globals)
    (options : option ConfigOptions) (allowProfile : bool) :
  is_Some (getConfigOnceErr g) ->
  is_Some (loadConfigOnce w (ResetConfig g) options allowProfile).2.2.
Proof.
  intros Hrecorded. rewrite loadConfigOnce_cold by done. simpl.
  by apply loadConfig_keeps_error.
Qed.

(** *** The options of the caller *)

(** C10, as amended. On a cold cache, when the generated state loads,
    the call writes into the options of its caller: [LoadedVars]
    becomes the package variable, and [Profile] becomes the active
    profile of the generated state when profiles are allowed, none was
    asked for and one is active; the other fields stay. *)
Theorem first_call_writes_options (w : World) (g : Globals)
    (options : ConfigOptions) (allowProfile : bool)
    (generatedConfig : GeneratedConfig) :
  getConfigOnce g = false ->
  generated_LoadConfig w (Profile options) = Ok generatedConfig ->
  exists g1 options1 returned,
    loadConfigOnce w g (Some options) allowProfile = (g1, Some options1, returned)
    /\ Options_LoadedVars options1 = LoadedVars g
    /\ (allowProfile = true -> Profile options = "" ->
        ActiveProfile generatedConfig <> "" ->
        Profile options1 = ActiveProfile generatedConfig)
    /\ KubeContext options1 = KubeContext options
    /\ Vars options1 = Vars options.
Proof.
  intros Hcold Hload. rewrite loadConfigOnce_cold by done.
  unfold configutil.loadConfig; simpl. rewrite Hload.
  destruct (GetConfigFromPath _ _ _ _) as [stages [loadedConfig|err]];
    [destruct (generated_SaveConfig w generatedConfig)|];
    simpl; eexists _, _, _; (split; [reflexivity|]); simpl.
  all: split; [done|]; split; [|by unfold selectProfile; repeat case_match].
  all: intros -> Hprofile Hactive; unfold selectProfile.
  all: by rewrite (bool_decide_eq_false_2 _ Hactive),
            (bool_decide_eq_true_2 _ Hprofile).
Qed.

End Resolver.

#[local] Open Scope string_scope.


(** C2. A resolution that fails, a reset, and a resolution that
    succeeds: the second one runs the whole pipeline and stores the model,
    and still returns the error of the first, because [ResetConfig]
    resets [getConfigOnce] and leaves [getConfigOnceErr] as it is. On a
    process that has not failed before, the same call returns no error. *)
Theorem reset_keeps_recorded_error :
  (GetConfig (sample.parseTo sample.emptyConfig) sample.decode
     (sample.world sample.bare "") sample.cold None).2
    = (None,
       Some (ErrorsErrorf
         "Couldn't find 'devspace.yaml': stat devspace.yaml: no such file or directory"))
  /\ getConfigOnce (ResetConfig sample.afterFailure) = false
  /\ steps (GetConfig (sample.parseTo sample.emptyConfig) sample.decode
              (sample.world sample.project "") (ResetConfig sample.afterFailure) None).1.1
       = (steps sample.afterFailure ++ spec.fullPipeline)%list
  /\ (GetConfig (sample.parseTo sample.emptyConfig) sample.decode
        (sample.world sample.project "") (ResetConfig sample.afterFailure) None).2
       = (Some sample.emptyConfig,
          Some (ErrorsErrorf
            "Couldn't find 'devspace.yaml': stat devspace.yaml: no such file or directory"))
  /\ (GetConfig (sample.parseTo sample.emptyConfig) sample.decode
        (sample.world sample.project "") sample.cold None).2
       = (Some sample.emptyConfig, None).
Proof. vm_compute. repeat split. Qed.

(** C10, as stated, fails: when the generated state cannot be loaded, the
    first call returns before it writes, and the options of the caller
    keep the [LoadedVars] they had. *)
Lemma failed_load_leaves_options :
  getConfigOnce sample.cold = false
  /\ (GetConfig (sample.parseTo sample.emptyConfig) sample.decode
        (sample.brokenState sample.project) sample.cold
        (Some sample.callerOptions)).1.2 = Some sample.callerOptions
  /\ Options_LoadedVars sample.callerOptions <> LoadedVars sample.cold.
Proof.
  split; [reflexivity|]. split; [reflexivity|].
  intros Hsame.
  assert (Options_LoadedVars sample.callerOptions !! "REGISTRY"
          = LoadedVars sample.cold !! "REGISTRY") as Hlookup by (by rewrite Hsame).
  vm_compute in Hlookup. discriminate.
Qed.

Lemma first_call_writes_options_witness :
  getConfigOnce sample.cold = false
  /\ generated_LoadConfig (sample.world sample.project "staging")
       (Profile sample.callerOptions) = Ok {| ActiveProfile := "staging" |}
  /\ exists g1 options1 returned,
       loadConfigOnce (sample.parseTo sample.emptyConfig) sample.decode
         (sample.world sample.project "staging") sample.cold
         (Some sample.callerOptions) true = (g1, Some options1, returned)
       /\ Options_LoadedVars options1 = LoadedVars sample.cold
       /\ (true = true -> Profile sample.callerOptions = "" ->
           ActiveProfile {| ActiveProfile := "staging" |} <> "" ->
           Profile options1 = ActiveProfile {| ActiveProfile := "staging" |})
       /\ KubeContext options1 = KubeContext sample.callerOptions
       /\ Vars options1 = Vars sample.callerOptions.
Proof.
  split; [reflexivity|]. split; [reflexivity|].
  exact (first_call_writes_options (sample.parseTo sample.emptyConfig) sample.decode
           (sample.world sample.project "staging") sample.cold
           sample.callerOptions true {| ActiveProfile := "staging" |}
           eq_refl eq_refl).
Defined.

(** ** Paths *)

Section Paths.

Import filepath.

Lemma uptoLastSeparator_length (path prefix : string) :
  uptoLastSeparator path = Some prefix ->
  0 < String.length prefix <= String.length path.
Proof.
  revert prefix. induction path as [|c rest IH]; intros prefix; simpl; [done|].
  destruct (uptoLastSeparator rest) as [prefix'|].
  - intros [= <-]. specialize (IH prefix' eq_refl). simpl. lia.
  - destruct (Ascii.eqb c "/"); intros [= <-]. simpl. lia.
Qed.

Lemma dropTrailingSeparator_length (path : string) :
  String.length (dropTrailingSeparator path) <= String.length path.
Proof.
  induction path as [|c rest IH]; [done|].
  destruct rest as [|c' rest].
  - simpl. destruct (Ascii.eqb c "/"); simpl; lia.
  - change (dropTrailingSeparator (String c (String c' rest)))
      with (String c (dropTrailingSeparator (String c' rest))).
    simpl in *. lia.
Qed.

Lemma dropTrailingSeparator_empty (path : string) :
  dropTrailingSeparator path = "" -> path = "" \/ path = "/".
Proof.
  destruct path as [|c [|c' rest]]; simpl; [by left| |done].
  destruct (Ascii.eqb_spec c "/") as [->|]; [by right|done].
Qed.

Lemma Dir_nonempty (path : string) : Dir path <> "".
Proof.
  unfold Dir. destruct (uptoLastSeparator path) as [prefix|] eqn:Hprefix; [|done].
  case_decide as Hroot; [done|]. intros Hempty.
  apply uptoLastSeparator_length in Hprefix.
  destruct (dropTrailingSeparator_empty _ Hempty) as [->| ->]; [simpl in *; lia|done].
Qed.

Lemma Dir_length (path : string) :
  path <> "" -> String.length (Dir path) <= String.length path.
Proof.
  intros Hpath. unfold Dir.
  destruct (uptoLastSeparator path) as [prefix|] eqn:Hprefix.
  - apply uptoLastSeparator_length in Hprefix.
    case_decide; [simpl; lia|].
    pose proof (dropTrailingSeparator_length prefix). lia.
  - destruct path; [done|simpl; lia].
Qed.

Lemma Dir_IsAbs (path : string) : IsAbs path = true -> IsAbs (Dir path) = true.
Proof.
  destruct path as [|c rest]; [done|]. simpl. intros Hc.
  unfold Dir; simpl. destruct (uptoLastSeparator rest) as [prefix|].
  - case_decide; [done|]. destruct prefix as [|c' prefix]; [|done].
    apply Ascii.eqb_eq in Hc as ->. done.
  - by rewrite Hc.
Qed.

Lemma Join_IsAbs (dir name : string) :
  IsAbs dir = true -> IsAbs (Join dir name) = true.
Proof.
  intros Habs. unfold Join. repeat case_decide; subst; try done.
  by destruct dir.
Qed.

End Paths.

(** ** Finding the project root *)

Section RootLocator.

Variable ParseConfig :
  GeneratedConfig -> gmap string Value -> ConfigOptions -> result Config.
Variable decode : gmap string Value -> Decoded.

(** The loop ends: the candidates get shorter until the length stays,
    so the length of the first one bounds the number of turns. *)
Lemma searchUp_terminates (fuel : nat) (g : Globals) (o : OS)
    (homedir originalCwd cwd : string) (lastLength : nat) :
  (String.length cwd = lastLength /\ 0 < fuel)
  \/ (cwd <> "" /\ String.length cwd + 2 <= fuel) ->
  is_Some (searchUp fuel g o homedir originalCwd cwd lastLength).
Proof.
  revert cwd lastLength. induction fuel as [|fuel IH]; intros cwd lastLength Hfuel;
    [lia|].
  simpl. case_bool_decide as Hlength; [by eexists|].
  destruct Hfuel as [[? _]|[Hcwd Hfuel]]; [done|].
  destruct (negb _ && configExistsInPath g o cwd).
  { by destruct (os.Chdir o cwd) as [o' [err|]]; eexists. }
  apply IH. pose proof (Dir_length cwd Hcwd).
  destruct (decide (String.length (filepath.Dir cwd) = String.length cwd)).
  - left. lia.
  - right. split; [apply Dir_nonempty|lia].
Qed.

(** [SetDevSpaceRoot] returns. *)
Lemma SetDevSpaceRoot_returns (g : Globals) (o : OS) :
  is_Some (SetDevSpaceRoot g o).
Proof.
  unfold SetDevSpaceRoot. destruct (os.Getwd o) as [wd|]; [|by eexists].
  destruct (home o) as [homedir|]; [|by eexists].
  apply searchUp_terminates. destruct wd; [left; simpl; lia|right; split; [done|lia]].
Qed.

Lemma climbs_length (g : Globals) (o : OS) (homedir cwd : string)
    (lastLength : nat) (dir : string) :
  spec.climbs g o homedir cwd lastLength dir -> String.length cwd <> lastLength.
Proof. by intros []. Qed.

Lemma climbs_IsAbs (g : Globals) (o : OS) (homedir cwd : string)
    (lastLength : nat) (dir : string) :
  spec.climbs g o homedir cwd lastLength dir ->
  filepath.IsAbs cwd = true -> filepath.IsAbs dir = true.
Proof. induction 1; [done|]. intros Habs. by apply IHclimbs, Dir_IsAbs. Qed.

(** The loop stops at the first directory that it reaches, that is not
    the home directory and that holds a marker. *)
Lemma searchUp_climbs (g : Globals) (o : OS) (homedir originalCwd cwd : string)
    (lastLength : nat) (dir : string) (fuel : nat) :
  spec.climbs g o homedir cwd lastLength dir ->
  dir <> homedir ->
  configExistsInPath g o dir = true ->
  chdirErr o dir = None ->
  cwd <> "" ->
  String.length cwd + 2 <= fuel ->
  exists o' notes,
    searchUp fuel g o homedir originalCwd cwd lastLength
      = Some (o', notes, (true, None))
    /\ os.Chdir o dir = (o', None).
Proof.
  intros Hclimbs Hhome Hexists Hchdir. revert fuel.
  induction Hclimbs as [cwd lastLength Hlength
                       |cwd lastLength dir Hlength Hskip Hclimbs IH];
    intros fuel Hcwd Hfuel; (destruct fuel as [|fuel]; [lia|]); simpl;
    rewrite bool_decide_eq_false_2 by done.
  - rewrite bool_decide_eq_false_2, Hexists by done. simpl.
    unfold os.Chdir. rewrite Hchdir. by eexists _, _.
  - assert (negb (bool_decide (cwd = homedir)) && configExistsInPath g o cwd = false)
      as ->.
    { destruct Hskip as [->| ->]; [by rewrite bool_decide_eq_true_2|].
      apply andb_false_r. }
    apply IH; [done..|apply Dir_nonempty|].
    pose proof (Dir_length cwd Hcwd). apply climbs_length in Hclimbs. lia.
Qed.

Lemma Stat_absolute (o : OS) (dir name : string) :
  filepath.IsAbs dir = true ->
  os.Stat o (filepath.Join dir name) =
  match files o !! filepath.Join dir name with
  | Some _ => None
  | None =>
      Some (Foreign ("stat " ++ filepath.Join dir name
                       ++ ": no such file or directory"))
  end.
Proof.
  intros Habs. unfold os.Stat, os.locate. by rewrite Join_IsAbs.
Qed.

(** C7, as amended. When the first marked directory that the upward
    walk comes to holds the legacy marker and not the primary one,
    [SetDevSpaceRoot] reports a configuration as found, without error,
    and makes that directory the working directory; it is
    [GetConfigFromPath], run there afterwards, that returns the error
    on the legacy format. *)
Theorem legacy_marker_found_then_refused (g : Globals) (o : OS)
    (wd homedir dir : string) (generatedConfig : GeneratedConfig)
    (options : option ConfigOptions) :
  config g = None ->
  os.Getwd o = Ok wd ->
  filepath.IsAbs wd = true ->
  home o = Ok homedir ->
  spec.climbs g o homedir wd 0 dir ->
  dir <> homedir ->
  files o !! filepath.Join dir constants.DefaultConfigPath = None ->
  is_Some (files o !! filepath.Join dir constants.DefaultConfigsPath) ->
  chdirErr o dir = None ->
  exists o' notes,
    SetDevSpaceRoot g o = Some (o', notes, (true, None))
    /\ cwd o' = dir
    /\ files o' = files o
    /\ (GetConfigFromPath ParseConfig decode o' generatedConfig "." options).2
         = Err (ErrorsErrorf
             "devspace-configs.yaml is not supported anymore in devspace v4. Please use 'profiles' in 'devspace.yaml' instead").
Proof.
  intros Hconfig Hgetwd Hwd Hhomedir Hclimbs Hhome Hprimary [entry Hlegacy] Hchdir.
  assert (filepath.IsAbs dir = true) as Hdir by (by eapply climbs_IsAbs).
  assert (configExistsInPath g o dir = true) as Hexists.
  { unfold configExistsInPath. rewrite Hconfig, !Stat_absolute by done.
    by rewrite Hprimary, Hlegacy. }
  assert (wd <> "") as Hnonempty by (by destruct wd).
  destruct (searchUp_climbs g o homedir wd wd 0 dir (S (S (String.length wd)))
              Hclimbs Hhome Hexists Hchdir Hnonempty) as (o' & notes & Hsearch & Ho');
    [lia|].
  exists o', notes. unfold SetDevSpaceRoot. rewrite Hgetwd, Hhomedir.
  split; [done|].
  unfold os.Chdir in Ho'. rewrite Hchdir in Ho'. injection Ho' as <-.
  unfold os.locate. rewrite Hdir. simpl. split; [done|]. split; [done|].
  unfold GetConfigFromPath, os.Stat, os.locate; simpl.
  change (filepath.Join "." constants.DefaultConfigPath)
    with constants.DefaultConfigPath.
  change (filepath.Join "." constants.DefaultConfigsPath)
    with constants.DefaultConfigsPath.
  simpl. by rewrite Hprimary, Hlegacy.
Qed.

End RootLocator.

(** C7, as stated, fails: two levels below a directory that holds the
    legacy marker only, [SetDevSpaceRoot] answers that a configuration
    was found and returns no error. *)
Lemma legacy_marker_counts_as_found :
  files sample.legacy !! "/work/app/devspace.yaml" = None
  /\ files sample.legacy !! "/work/app/devspace-configs.yaml" = Some (YamlFile ∅)
  /\ (fun r => (cwd r.1.1, r.2)) <$> SetDevSpaceRoot sample.cold sample.legacy
       = Some ("/work/app", (true, None)).
Proof. vm_compute. repeat split. Qed.

Lemma legacy_marker_found_then_refused_witness :
  spec.climbs sample.cold sample.legacy "/home/dev" "/work/app/src/cmd" 0 "/work/app"
  /\ files sample.legacy !! filepath.Join "/work/app" constants.DefaultConfigPath = None
  /\ is_Some (files sample.legacy
                !! filepath.Join "/work/app" constants.DefaultConfigsPath)
  /\ exists o' notes,
       SetDevSpaceRoot sample.cold sample.legacy = Some (o', notes, (true, None))
       /\ cwd o' = "/work/app"
       /\ files o' = files sample.legacy
       /\ (GetConfigFromPath (sample.parseTo sample.emptyConfig) sample.decode o'
             {| ActiveProfile := "" |} "." None).2
            = Err (ErrorsErrorf
                "devspace-configs.yaml is not supported anymore in devspace v4. Please use 'profiles' in 'devspace.yaml' instead").
Proof.
  assert (spec.climbs sample.cold sample.legacy "/home/dev" "/work/app/src/cmd" 0
            "/work/app") as Hclimbs.
  { apply spec.climbs_up; [by vm_compute|right; by vm_compute|].
    apply (spec.climbs_up _ _ _ "/work/app/src"); [by vm_compute|right; by vm_compute|].
    apply (spec.climbs_here _ _ _ "/work/app"). by vm_compute. }
  assert (files sample.legacy !! filepath.Join "/work/app" constants.DefaultConfigPath
          = None) as Hprimary by (by vm_compute).
  assert (is_Some (files sample.legacy
                     !! filepath.Join "/work/app" constants.DefaultConfigsPath))
    as Hlegacy by (eexists; by vm_compute).
  split; [exact Hclimbs|]. split; [exact Hprimary|]. split; [exact Hlegacy|].
  apply (legacy_marker_found_then_refused (sample.parseTo sample.emptyConfig)
           sample.decode sample.cold sample.legacy "/work/app/src/cmd" "/home/dev"
           "/work/app" {| ActiveProfile := "" |} None);
    done || by vm_compute.
Defined.

(** ** The helm deployment client *)

Section HelmClient.

Lemma deref_store (config : Config) (i j : nat) (d d' : DeploymentConfig) :
  helm.deref config i = Some d ->
  helm.deref (helm.store config i d') j =
  if decide (i = j) then Some d' else helm.deref config j.
Proof.
  unfold helm.deref, helm.store. intros Hi.
  destruct (Deployments config) as [deployments|]; [|done]. simpl in *.
  case_decide as Hij.
  - subst j. apply list_lookup_insert_eq. by eapply lookup_lt_Some.
  - by apply list_lookup_insert_ne.
Qed.

(** C8, as amended. Constructing the client for a deployment of the
    model that opts into the component chart writes into the model: the
    chart of that deployment becomes [DevSpaceChartConfig]. Nothing
    else changes: the other sections, the other deployments and the
    other fields of the deployment are as before, and a deployment that
    does not opt in leaves the whole model as it is. *)
Theorem New_exchanges_chart (config : Config) (kubeClient : helm.KubeClient)
    (deployConfig : nat) (d : DeploymentConfig) (h : HelmConfig) :
  helm.deref config deployConfig = Some d ->
  Helm d = Some h ->
  exists config' client,
    helm.New config kubeClient deployConfig = Some (config', (client, None))
    /\ helm.Client_DeploymentConfig client = deployConfig
    /\ Dev config' = Dev config
    /\ Commands config' = Commands config
    /\ Hooks config' = Hooks config
    /\ Images config' = Images config
    /\ (forall j, j <> deployConfig -> helm.deref config' j = helm.deref config j)
    /\ helm.deref config' deployConfig
         = Some (if usesComponentChart h
                 then helm.setHelm (helm.setChart helm.DevSpaceChartConfig h) d
                 else d)
    /\ (usesComponentChart h = false -> config' = config).
Proof.
  intros Hd Hh. unfold helm.New. rewrite Hd, Hh.
  eexists _, _. split; [reflexivity|]. split; [done|].
  destruct (usesComponentChart h) eqn:Huses.
  - assert (exists deployments, Deployments config = Some deployments)
      as [deployments Hdeployments].
    { unfold helm.deref in Hd. destruct (Deployments config); [by eexists|done]. }
    do 4 (split; [unfold helm.store; by rewrite Hdeployments|]).
    split; [|split; [|done]].
    + intros j Hj. rewrite (deref_store _ _ _ d) by done. by case_decide.
    + rewrite (deref_store _ _ _ d) by done. by case_decide.
  - repeat split; done.
Qed.

End HelmClient.

(** C8, as stated, fails: the model holds no chart for its deployment of
    the component chart before the client is constructed, and holds
    [DevSpaceChartConfig] after. *)
Lemma New_writes_into_model :
  sample.chartOf sample.componentModel 0 = None
  /\ (r ← helm.New sample.componentModel sample.kube 0; sample.chartOf r.1 0)
       = Some helm.DevSpaceChartConfig
  /\ fst <$> helm.New sample.componentModel sample.kube 0 <> Some sample.componentModel.
Proof.
  split; [reflexivity|]. split; [by vm_compute|].
  intros Hsame.
  assert ((r ← helm.New sample.componentModel sample.kube 0; sample.chartOf r.1 0)
          = sample.chartOf sample.componentModel 0) as Hchart.
  { destruct (helm.New sample.componentModel sample.kube 0) as [[config' client]|];
      simpl in *; by simplify_eq. }
  vm_compute in Hchart. discriminate.
Qed.

Lemma New_exchanges_chart_witness :
  helm.deref sample.componentModel 0 = Some sample.component
  /\ Helm sample.component = Some sample.componentHelm
  /\ exists config' client,
       helm.New sample.componentModel sample.kube 0 = Some (config', (client, None))
       /\ helm.Client_DeploymentConfig client = 0
       /\ Dev config' = Dev sample.componentModel
       /\ Commands config' = Commands sample.componentModel
       /\ Hooks config' = Hooks sample.componentModel
       /\ Images config' = Images sample.componentModel
       /\ (forall j, j <> 0 -> helm.deref config' j = helm.deref sample.componentModel j)
       /\ helm.deref config' 0
            = Some (if usesComponentChart sample.componentHelm
                    then helm.setHelm
                           (helm.setChart helm.DevSpaceChartConfig sample.componentHelm)
                           sample.component
                    else sample.component)
       /\ (usesComponentChart sample.componentHelm = false ->
           config' = sample.componentModel).
Proof.
  split; [reflexivity|]. split; [reflexivity|].
  exact (New_exchanges_chart sample.componentModel sample.kube 0 sample.component
           sample.componentHelm eq_refl eq_refl).
Defined.

(** * Further properties of the code *)

#[local] Set Warnings "-clear-no-such-hyp".

(** ** Accepted models *)

Section AcceptedModels.

Variable decode : gmap string Value -> Decoded.

Lemma rangeFrom_None {A : Type} (body : nat -> A -> option error)
    (index : nat) (xs : list A) :
  rangeFrom body index xs = None <->
  forall i x, xs !! i = Some x -> body (index + i) x = None.
Proof.
  split; [intros Hloop i x; by apply rangeFrom_accepts|].
  revert index. induction xs as [|x xs IH]; intros index Hall; [done|].
  simpl. pose proof (Hall 0 x eq_refl) as Hx. rewrite Nat.add_0_r in Hx.
  rewrite Hx. apply IH; intros i y Hi.
  rewrite Nat.add_succ_comm. by apply (Hall (S i)).
Qed.

Lemma range_None {A : Type} (xs : option (list A))
    (body : nat -> A -> option error) (P : nat -> A -> Prop) :
  (forall i x, body i x = None <-> P i x) ->
  range xs body = None <-> rules.each xs P.
Proof.
  intros Hbody. unfold range, rules.each. destruct xs as [xs|]; simpl.
  - rewrite rangeFrom_None. by setoid_rewrite Hbody.
  - split; [by intros _ i x|done].
Qed.

Lemma andThen_None (check rest : option error) :
  andThen check rest = None <-> check = None /\ rest = None.
Proof. destruct check; simpl; naive_solver. Qed.

Lemma validateSync_accepts (index : nat) (sync : SyncConfig) :
  validateSync index sync = None <-> rules.syncOk sync.
Proof.
  unfold validateSync, rules.syncOk.
  case_bool_decide; destruct (Sync_LabelSelector sync); simpl; intuition congruence.
Qed.

Lemma validateInteractiveImage_accepts (index : nat)
    (imageConf : InteractiveImageConfig) :
  validateInteractiveImage index imageConf = None <->
  InteractiveImage_Name imageConf <> "".
Proof. unfold validateInteractiveImage. case_bool_decide; intuition congruence. Qed.

Lemma validateCommand_accepts (index : nat) (command : CommandConfig) :
  validateCommand index command = None <-> rules.commandOk command.
Proof.
  unfold validateCommand, rules.commandOk.
  repeat case_bool_decide; intuition congruence.
Qed.




Lemma chartMissing_false (h : HelmConfig) :
  chartMissing h = false <-> rules.helmOk h.
Proof.
  unfold chartMissing, rules.helmOk, usesComponentChart.
  destruct (Chart h) as [chart|]; destruct (ComponentChart h) as [[]|]; simpl;
    try case_bool_decide; naive_solver.
Qed.

Ltac close_rule :=
  first [ done | by left | by right
        | intros; simplify_eq; first [done | congruence | eauto] ].

Lemma validateDeployment_accepts (o : OS) (index : nat) (d : DeploymentConfig) :
  validateDeployment decode o index d = None <-> rules.deploymentOk decode o index d.
Proof.
  unfold validateDeployment, rules.deploymentOk.
  case_bool_decide as Hname; [split; [done|]; by intros [? _]|].
  destruct (Helm d) as [h|]; destruct (Kubectl d) as [kubectl|]; simpl.
  4: { split; [done|]. by intros (_ & [?|?] & _). }
  1, 2: destruct (chartMissing h) eqn:Hchart;
    [split; [done|]; intros (_ & _ & Hh & _); specialize (Hh h eq_refl);
     apply chartMissing_false in Hh; congruence
    |apply chartMissing_false in Hchart].
  - destruct (Manifests kubectl) eqn:Hmanifests; simpl;
      [|split; [done|]; intros (_ & _ & _ & Hk & _); by specialize (Hk kubectl eq_refl)].
    destruct (usesComponentChart h) eqn:Huses;
      (split; [intros Hvalues; repeat split; close_rule|]); [|done].
    intros (_ & _ & _ & _ & Hvalues). by apply (Hvalues h).
  - destruct (usesComponentChart h) eqn:Huses;
      (split; [intros Hvalues; repeat split; close_rule|]); [|done].
    intros (_ & _ & _ & _ & Hvalues). by apply (Hvalues h).
  - destruct (Manifests kubectl) eqn:Hmanifests; simpl;
      [|split; [done|]; intros (_ & _ & _ & Hk & _); by specialize (Hk kubectl eq_refl)].
    split; [intros _; repeat split; close_rule|done].
Qed.

Lemma validateDev_accepts (dev : option DevConfig) :
  validateDev dev = None <-> forall dev', dev = Some dev' -> rules.devOk dev'.
Proof.
  destruct dev as [dev|]; simpl; [|naive_solver].
  rewrite !andThen_None.
  rewrite (range_None _ _ (fun _ => rules.portOk)) by apply validatePort_accepts.
  rewrite (range_None _ _ (fun _ => rules.syncOk)) by apply validateSync_accepts.
  assert (match Interactive dev with
          | Some interactive =>
              range (Interactive_Images interactive) validateInteractiveImage
          | None => None
          end = None <->
          forall interactive,
            Interactive dev = Some interactive ->
            rules.each (Interactive_Images interactive)
              (fun _ imageConf => InteractiveImage_Name imageConf <> "")) as ->.
  { destruct (Interactive dev) as [interactive|]; [|naive_solver].
    rewrite (range_None _ _ (fun _ imageConf => InteractiveImage_Name imageConf <> ""))
      by apply validateInteractiveImage_accepts.
    naive_solver. }
  unfold rules.devOk. naive_solver.
Qed.


End AcceptedModels.

(** ** The entry that an error names *)

Section FirstViolation.

Variable decode : gmap string Value -> Decoded.

(** The loop returns the error of the first entry that its body
    rejects. *)
Lemma rangeFrom_first {A : Type} (body : nat -> A -> option error)
    (index : nat) (xs : list A) (i : nat) (x : A) (err : error) :
  xs !! i = Some x ->
  body (index + i) x = Some err ->
  (forall j y, j < i -> xs !! j = Some y -> body (index + j) y = None) ->
  rangeFrom body index xs = Some err.
Proof.
  intros Hi Hx Hbefore.
  rewrite <- (take_drop_middle xs i x Hi), rangeFrom_app.
  assert (rangeFrom body index (take i xs) = None) as ->.
  { apply rangeFrom_None; intros j y Hj.
    apply lookup_take_Some in Hj as [Hj Hlt]. by apply Hbefore. }
  simpl. rewrite length_take_le by (apply Nat.lt_le_incl; by eapply lookup_lt_Some).
  by rewrite Hx.
Qed.

(** X2. When the [Dev] section is in order, the error for the commands
    carries the index of the first command that lacks its name or its
    command line, and says which of the two is missing, the name being
    tested first. *)
Theorem validate_reports_first_command (o : OS) (config : Config)
    (commands : list CommandConfig) (i : nat) (command : CommandConfig) :
  (forall dev, Dev config = Some dev -> rules.devOk dev) ->
  Commands config = Some commands ->
  commands !! i = Some command ->
  (forall j earlier, j < i -> commands !! j = Some earlier -> rules.commandOk earlier) ->
  ~ rules.commandOk command ->
  validate decode o config =
  Some (ErrorsErrorf
    ("commands[" ++ fmtd i ++ "]."
       ++ (if bool_decide (Command_Name command = "") then "name" else "command")
       ++ " is required")).
Proof.
  intros Hdev Hcommands Hi Hbefore Hcommand. unfold validate.
  apply validateDev_accepts in Hdev. rewrite Hdev, Hcommands. simpl.
  erewrite (rangeFrom_first validateCommand 0 commands i command); [done|done| |].
  - unfold validateCommand, rules.commandOk in *. simpl.
    repeat case_bool_decide; try done. by destruct Hcommand.
  - intros j earlier Hj Hearlier. apply validateCommand_accepts. by eapply Hbefore.
Qed.

(** X3. Go visits the map [config.Images] in an order of its choosing;
    whether the validator accepts a model does not depend on that order
    (which of several errors it returns does). *)
Theorem validate_verdict_ignores_image_order (o : OS) (config : Config)
    (images images' : list (string * ImageConfig)) :
  Images config = Some images ->
  images ≡ₚ images' ->
  (validate decode o config = None <->
   validate decode o (rules.setImages images' config) = None).
Proof.
  intros Himages Hperm. unfold validate; simpl. rewrite !andThen_None, Himages.
  simpl.
  assert (forall l : list (string * ImageConfig),
            rangeFrom (fun _ => validateImage) 0 l = None <->
            Forall (fun entry => validateImage entry = None) l) as Hall.
  { intros l. rewrite rangeFrom_None, Forall_lookup. naive_solver. }
  rewrite !Hall. rewrite Hperm. reflexivity.
Qed.

End FirstViolation.

Lemma validate_reports_first_command_witness :
  (forall dev, Dev sample2.scripted = Some dev -> rules.devOk dev)
  /\ ~ rules.commandOk {| Command_Name := "test"; Command_Command := "" |}
  /\ validate sample.decode sample.bare sample2.scripted =
     Some (ErrorsErrorf "commands[1].command is required").
Proof.
  assert (forall dev, Dev sample2.scripted = Some dev -> rules.devOk dev) as Hdev
    by done.
  assert (~ rules.commandOk {| Command_Name := "test"; Command_Command := "" |})
    as Hcommand by (by intros [_ ?]).
  split; [exact Hdev|]. split; [exact Hcommand|].
  apply (validate_reports_first_command sample.decode sample.bare sample2.scripted
           (default [] (Commands sample2.scripted)) 1
           {| Command_Name := "test"; Command_Command := "" |} Hdev eq_refl eq_refl);
    [|exact Hcommand].
  intros [|j] earlier Hj Hearlier; [|lia]. by simplify_eq/=.
Defined.

Lemma validate_verdict_ignores_image_order_witness :
  Images sample2.valid
    = Some [ ("app", {| Image := "registry.local/app"; Build := None |});
             ("db", {| Image := "registry.local/db"; Build := None |}) ]
  /\ (validate sample.decode sample.withValues sample2.valid = None <->
      validate sample.decode sample.withValues
        (rules.setImages
           [ ("db", {| Image := "registry.local/db"; Build := None |});
             ("app", {| Image := "registry.local/app"; Build := None |}) ]
           sample2.valid) = None).
Proof.
  split; [reflexivity|].
  apply (validate_verdict_ignores_image_order sample.decode sample.withValues
           sample2.valid _ _ eq_refl).
  apply Permutation_swap.
Defined.

(** ** The client and the validated model *)

Section ClientAndModel.

Variable decode : gmap string Value -> Decoded.

Lemma rangeFrom_insert {A : Type} (body : nat -> A -> option error)
    (index : nat) (xs : list A) (i : nat) (x x' : A) :
  xs !! i = Some x ->
  body (index + i) x' = body (index + i) x ->
  rangeFrom body index (<[i := x']> xs) = rangeFrom body index xs.
Proof.
  revert index i. induction xs as [|y xs IH]; intros index i Hi Hbody; [done|].
  destruct i as [|i]; simplify_eq/=.
  - rewrite Nat.add_0_r in Hbody. by rewrite Hbody.
  - destruct (body index y); [done|].
    apply IH; [done|]. by rewrite Nat.add_succ_comm.
Qed.

(** What [New] leaves in the model. *)
Lemma New_model (config : Config) (kubeClient : helm.KubeClient)
    (deployConfig : nat) (config' : Config) (r : helm.DeployConfig * option error) :
  helm.New config kubeClient deployConfig = Some (config', r) ->
  exists d h,
    helm.deref config deployConfig = Some d /\ Helm d = Some h
    /\ config' = if usesComponentChart h
                 then helm.store config deployConfig
                        (helm.setHelm (helm.setChart helm.DevSpaceChartConfig h) d)
                 else config.
Proof.
  unfold helm.New. destruct (helm.deref config deployConfig) as [d|]; [|done].
  destruct (Helm d) as [h|] eqn:Hh; [|done]. intros [= <- _]. by exists d, h.
Qed.

Lemma validateDeployment_exchanged (o : OS) (index : nat) (d : DeploymentConfig)
    (h : HelmConfig) :
  Helm d = Some h ->
  usesComponentChart h = true ->
  validateDeployment decode o index
    (helm.setHelm (helm.setChart helm.DevSpaceChartConfig h) d)
  = validateDeployment decode o index d.
Proof.
  intros Hh Huses.
  unfold validateDeployment, chartMissing, usesComponentChart in *.
  simpl. rewrite Hh.
  destruct (ComponentChart h) as [[]|]; try done.
  simpl. by rewrite !andb_false_r.
Qed.

(** X4. Constructing the helm client does not change what the validator
    says of the model: the chart that [New] writes into a deployment of
    the component chart is not read by any rule that applies to it. *)
Theorem New_keeps_validation (o : OS) (config : Config)
    (kubeClient : helm.KubeClient) (deployConfig : nat) (config' : Config)
    (r : helm.DeployConfig * option error) :
  helm.New config kubeClient deployConfig = Some (config', r) ->
  validate decode o config' = validate decode o config.
Proof.
  intros Hnew. destruct (New_model _ _ _ _ _ Hnew) as (d & h & Hd & Hh & ->).
  destruct (usesComponentChart h) eqn:Huses; [|done].
  unfold helm.deref, helm.store in *.
  destruct (Deployments config) as [deployments|] eqn:Hdeployments; [|done].
  unfold validate; simpl. rewrite Hdeployments. do 4 f_equal. simpl in *.
  apply (rangeFrom_insert _ 0 deployments deployConfig d); [done|].
  by apply validateDeployment_exchanged.
Qed.

Lemma validate_deployment_accepted (o : OS) (config : Config) (i : nat)
    (d : DeploymentConfig) :
  validate decode o config = None ->
  helm.deref config i = Some d ->
  rules.deploymentOk decode o i d.
Proof.
  unfold validate. rewrite !andThen_None. intros (_ & _ & _ & _ & Hdeployments) Hd.
  apply validateDeployment_accepts.
  unfold helm.deref in Hd. destruct (Deployments config) as [deployments|]; [|done].
  by apply (rangeFrom_accepts _ 0 deployments i d).
Qed.

(** The chart of a helm deployment of an accepted model, once its client
    has been constructed. *)
Lemma New_validated_chart (o : OS) (config : Config)
    (kubeClient : helm.KubeClient) (deployConfig : nat) (config' : Config)
    (r : helm.DeployConfig * option error) :
  validate decode o config = None ->
  helm.New config kubeClient deployConfig = Some (config', r) ->
  exists d d' h h' chart,
    helm.deref config deployConfig = Some d /\ Helm d = Some h
    /\ helm.deref config' deployConfig = Some d' /\ Helm d' = Some h'
    /\ Deployment_Name d' = Deployment_Name d
    /\ Chart h' = Some chart /\ Chart_Name chart <> ""
    /\ (usesComponentChart h = true -> chart = helm.DevSpaceChartConfig)
    /\ helm.Client_DeploymentConfig r.1 = deployConfig.
Proof.
  intros Hvalid Hnew. destruct (New_model _ _ _ _ _ Hnew) as (d & h & Hd & Hh & ->).
  assert (helm.Client_DeploymentConfig r.1 = deployConfig) as Hptr.
  { unfold helm.New in Hnew. rewrite Hd, Hh in Hnew. by injection Hnew as <-. }
  destruct (validate_deployment_accepted o config deployConfig d Hvalid Hd)
    as (_ & _ & Hhelm & _).
  destruct (usesComponentChart h) eqn:Huses.
  - eexists d, _, h, _, helm.DevSpaceChartConfig.
    rewrite (deref_store _ _ _ d) by done. rewrite decide_True by done.
    repeat split; done.
  - destruct (Hhelm h Hh) as [?|(chart & Hchart & Hname)]; [congruence|].
    exists d, d, h, h, chart. repeat split; first [done | intros; congruence].
Qed.

(** X5. In a model that the validator accepted, after the client of a
    helm deployment has been constructed the deployment has a chart with
    a name: the one that it declared, or the component chart. *)
Theorem New_after_validate_has_chart (o : OS) (config : Config)
    (kubeClient : helm.KubeClient) (deployConfig : nat) (config' : Config)
    (r : helm.DeployConfig * option error) :
  validate decode o config = None ->
  helm.New config kubeClient deployConfig = Some (config', r) ->
  exists d h chart,
    helm.deref config' deployConfig = Some d /\ Helm d = Some h
    /\ Chart h = Some chart /\ Chart_Name chart <> "".
Proof.
  intros Hvalid Hnew.
  destruct (New_validated_chart o _ _ _ _ _ Hvalid Hnew)
    as (_ & d' & _ & h' & chart & _ & _ & Hd' & Hh' & _ & Hchart & Hname & _).
  by exists d', h', chart.
Qed.

(** X6. Constructing the client a second time for the same deployment
    changes nothing more and gives the same client. *)
Theorem New_twice (config : Config) (kubeClient : helm.KubeClient)
    (deployConfig : nat) (config' : Config) (r : helm.DeployConfig * option error) :
  helm.New config kubeClient deployConfig = Some (config', r) ->
  helm.New config' kubeClient deployConfig = Some (config', r).
Proof.
  intros Hnew. destruct (New_model _ _ _ _ _ Hnew) as (d & h & Hd & Hh & ->).
  unfold helm.New in *. rewrite Hd, Hh in Hnew. injection Hnew as <-.
  destruct (usesComponentChart h) eqn:Huses.
  - rewrite (deref_store _ _ _ d) by done. rewrite decide_True by done. simpl.
    change (usesComponentChart (helm.setChart helm.DevSpaceChartConfig h))
      with (usesComponentChart h).
    rewrite Huses. do 2 f_equal.
    unfold helm.store, helm.deref in *.
    destruct (Deployments config) as [deployments|]; [|done]. simpl.
    unfold setDeployments, helm.setHelm, helm.setChart; simpl.
    by rewrite list_insert_insert_eq.
  - by rewrite Hd, Hh, Huses.
Qed.

End ClientAndModel.

Lemma New_keeps_validation_witness :
  exists config' r,
    helm.New sample.componentModel sample.kube 0 = Some (config', r)
    /\ validate sample.decode sample.withValues config'
         = validate sample.decode sample.withValues sample.componentModel.
Proof.
  destruct (helm.New sample.componentModel sample.kube 0) as [[config' r]|] eqn:Hnew;
    [|by vm_compute in Hnew].
  exists config', r. split; [reflexivity|].
  exact (New_keeps_validation sample.decode sample.withValues _ _ _ _ _ Hnew).
Defined.

Lemma New_after_validate_has_chart_witness :
  validate sample.decode sample.withValues sample.componentModel = None
  /\ exists config' r,
       helm.New sample.componentModel sample.kube 0 = Some (config', r)
       /\ exists d h chart,
            helm.deref config' 0 = Some d /\ Helm d = Some h
            /\ Chart h = Some chart /\ Chart_Name chart <> "".
Proof.
  assert (validate sample.decode sample.withValues sample.componentModel = None)
    as Hvalid by (by vm_compute).
  split; [exact Hvalid|].
  destruct (helm.New sample.componentModel sample.kube 0) as [[config' r]|] eqn:Hnew;
    [|by vm_compute in Hnew].
  exists config', r. split; [reflexivity|].
  exact (New_after_validate_has_chart sample.decode sample.withValues _ _ _ _ _
           Hvalid Hnew).
Defined.

Lemma New_twice_witness :
  exists config' r,
    helm.New sample.componentModel sample.kube 0 = Some (config', r)
    /\ helm.New config' sample.kube 0 = Some (config', r).
Proof.
  destruct (helm.New sample.componentModel sample.kube 0) as [[config' r]|] eqn:Hnew;
    [|by vm_compute in Hnew].
  exists config', r. split; [reflexivity|].
  exact (New_twice _ _ _ _ _ Hnew).
Defined.

(** ** Removing a release *)

Section DeleteRelease.

Variable decode : gmap string Value -> Decoded.
Context {V : Type}.
Implicit Types (deployments : gmap string V) (helmClient : option deploy.Interface).

(** X7. [Delete] leaves [cache.Deployments] as it is when tiller is not
    deployed and whenever it returns an error: when the helm client
    cannot be made and when the release cannot be deleted. *)
Theorem Delete_keeps_cache (tiller : deploy.Tiller) (config : Config)
    (d : helm.DeployConfig) helmClient deployments helmClient' deployments'
    (err : option error) :
  deploy.Delete tiller config d helmClient deployments
    = deploy.Returned helmClient' deployments' err ->
  err <> None
  \/ deploy.IsTillerDeployed tiller config (helm.Kube d) (helm.TillerNamespace d) = false ->
  deployments' = deployments.
Proof.
  unfold deploy.Delete. intros Hdelete Hwhy.
  destruct (deploy.IsTillerDeployed _ _ _ _); simpl in *; [|by simplify_eq].
  destruct Hwhy as [Herr|?]; [|done].
  repeat case_match; by simplify_eq.
Qed.

(** X8. When tiller is deployed and [Delete] returns no error, it has
    asked the helm client to delete the release named after the
    deployment, and it has removed from [cache.Deployments] the entry
    under the name of the deployment's chart, and no other entry. *)
Theorem Delete_removes_chart_entry (tiller : deploy.Tiller) (config : Config)
    (d : helm.DeployConfig) helmClient deployments helmClient' deployments' :
  deploy.Delete tiller config d helmClient deployments
    = deploy.Returned helmClient' deployments' None ->
  deploy.IsTillerDeployed tiller config (helm.Kube d) (helm.TillerNamespace d) = true ->
  exists deployConfig h chart client,
    helm.deref config (helm.Client_DeploymentConfig d) = Some deployConfig
    /\ Helm deployConfig = Some h
    /\ Chart h = Some chart
    /\ helmClient' = Some client
    /\ deploy.DeleteRelease client (Deployment_Name deployConfig) true = None
    /\ forall key,
         deployments' !! key =
         if decide (key = Chart_Name chart) then None else deployments !! key.
Proof.
  unfold deploy.Delete. intros Hdelete Htiller. rewrite Htiller in Hdelete.
  simpl in Hdelete.
  destruct (match helmClient with
            | Some client => Ok client
            | None => deploy.NewClient tiller config (helm.Kube d)
                        (helm.TillerNamespace d) false
            end) as [client|]; [|done].
  destruct (helm.deref config _) as [deployConfig|]; [|done].
  destruct (deploy.DeleteRelease client _ true) eqn:Hrelease; [done|].
  destruct (Helm deployConfig) as [h|] eqn:Hh; [|done].
  destruct (Chart h) as [chart|] eqn:Hchart; [|done].
  injection Hdelete as <- <-.
  exists deployConfig, h, chart, client. do 5 (split; [done|]).
  intros key. case_decide as Hkey.
  - subst key. apply lookup_delete_eq.
  - by apply lookup_delete_ne.
Qed.

(** X9. For a deployment of a model that the validator accepted and a
    client that [New] constructed, [Delete] does not panic: the
    deployment, its helm configuration and its chart are there when it
    dereferences them. *)
Theorem Delete_after_New_returns (o : OS) (tiller : deploy.Tiller)
    (config : Config) (kubeClient : helm.KubeClient) (deployConfig : nat)
    (config' : Config) (client : helm.DeployConfig) (err : option error)
    helmClient deployments :
  validate decode o config = None ->
  helm.New config kubeClient deployConfig = Some (config', (client, err)) ->
  deploy.Delete tiller config' client helmClient deployments <> deploy.Panicked.
Proof.
  intros Hvalid Hnew.
  destruct (New_validated_chart decode o _ _ _ _ _ Hvalid Hnew)
    as (_ & d' & _ & h' & chart & _ & _ & Hd' & Hh' & _ & Hchart & _ & _ & Hptr).
  simpl in Hptr. unfold deploy.Delete. rewrite Hptr, Hd', Hh', Hchart.
  repeat case_match; done.
Qed.

(** X10. For a deployment of the component chart, the entry that a
    successful [Delete] removes from [cache.Deployments] is the one under
    "component-chart", whatever the name of the deployment. *)
Theorem Delete_component_chart_entry (tiller : deploy.Tiller)
    (config : Config) (kubeClient : helm.KubeClient) (deployConfig : nat)
    (d : DeploymentConfig) (h : HelmConfig)
    (config' : Config) (client : helm.DeployConfig) (err : option error)
    helmClient deployments helmClient' deployments' :
  helm.deref config deployConfig = Some d ->
  Helm d = Some h ->
  usesComponentChart h = true ->
  helm.New config kubeClient deployConfig = Some (config', (client, err)) ->
  deploy.IsTillerDeployed tiller config' (helm.Kube client)
    (helm.TillerNamespace client) = true ->
  deploy.Delete tiller config' client helmClient deployments
    = deploy.Returned helmClient' deployments' None ->
  deployments' = delete "component-chart" deployments.
Proof.
  intros Hd Hh Huses Hnew Htiller Hdelete.
  unfold helm.New in Hnew. rewrite Hd, Hh, Huses in Hnew. injection Hnew as <- <- _.
  unfold deploy.Delete in Hdelete. rewrite Htiller in Hdelete. simpl in Hdelete.
  rewrite (deref_store _ _ _ d) in Hdelete by done.
  rewrite decide_True in Hdelete by done. simpl in Hdelete.
  repeat case_match; by simplify_eq.
Qed.

End DeleteRelease.

Lemma Delete_keeps_cache_witness :
  deploy.Delete sample2.absent sample2.exchanged sample2.client None sample2.cache
    = deploy.Returned None sample2.cache None
  /\ sample2.cache = sample2.cache.
Proof.
  assert (deploy.Delete sample2.absent sample2.exchanged sample2.client None
            sample2.cache = deploy.Returned None sample2.cache None) as Hdelete
    by reflexivity.
  split; [exact Hdelete|].
  exact (Delete_keeps_cache _ _ _ _ _ _ _ _ Hdelete (or_intror eq_refl)).
Defined.

Lemma Delete_removes_chart_entry_witness :
  deploy.Delete sample2.deployed sample2.exchanged sample2.client None sample2.cache
    = deploy.Returned (Some sample2.obliging)
        (delete "component-chart" sample2.cache) None
  /\ exists deployConfig h chart client,
       helm.deref sample2.exchanged (helm.Client_DeploymentConfig sample2.client)
         = Some deployConfig
       /\ Helm deployConfig = Some h
       /\ Chart h = Some chart
       /\ Some sample2.obliging = Some client
       /\ deploy.DeleteRelease client (Deployment_Name deployConfig) true = None
       /\ forall key,
            delete "component-chart" sample2.cache !! key =
            if decide (key = Chart_Name chart) then None else sample2.cache !! key.
Proof.
  assert (deploy.Delete sample2.deployed sample2.exchanged sample2.client None
            sample2.cache
          = deploy.Returned (Some sample2.obliging)
              (delete "component-chart" sample2.cache) None) as Hdelete
    by reflexivity.
  split; [exact Hdelete|].
  exact (Delete_removes_chart_entry _ _ _ _ _ _ _ Hdelete eq_refl).
Defined.

Lemma Delete_after_New_returns_witness :
  validate sample.decode sample.withValues sample.componentModel = None
  /\ helm.New sample.componentModel sample.kube 0
       = Some (sample2.exchanged, (sample2.client, None))
  /\ deploy.Delete sample2.deployed sample2.exchanged sample2.client None sample2.cache
       <> deploy.Panicked.
Proof.
  assert (validate sample.decode sample.withValues sample.componentModel = None)
    as Hvalid by (by vm_compute).
  assert (helm.New sample.componentModel sample.kube 0
          = Some (sample2.exchanged, (sample2.client, None))) as Hnew by reflexivity.
  split; [exact Hvalid|]. split; [exact Hnew|].
  exact (Delete_after_New_returns sample.decode sample.withValues sample2.deployed
           _ _ _ _ _ _ None sample2.cache Hvalid Hnew).
Defined.

Lemma Delete_component_chart_entry_witness :
  usesComponentChart sample.componentHelm = true
  /\ Deployment_Name sample.component = "backend"
  /\ deploy.Delete sample2.deployed sample2.exchanged sample2.client None sample2.cache
       = deploy.Returned (Some sample2.obliging)
           (delete "component-chart" sample2.cache) None
  /\ delete "component-chart" sample2.cache = delete "component-chart" sample2.cache.
Proof.
  assert (deploy.Delete sample2.deployed sample2.exchanged sample2.client None
            sample2.cache
          = deploy.Returned (Some sample2.obliging)
              (delete "component-chart" sample2.cache) None) as Hdelete
    by reflexivity.
  do 2 (split; [reflexivity|]). split; [exact Hdelete|].
  exact (Delete_component_chart_entry sample2.deployed
           sample.componentModel sample.kube 0 sample.component sample.componentHelm
           sample2.exchanged sample2.client None None sample2.cache _ _
           eq_refl eq_refl eq_refl eq_refl eq_refl Hdelete).
Defined.

(** ** What the root locator returns *)

Section RootLocatorResults.

Lemma skipped_directory (g : Globals) (o : OS) (homedir cwd : string) :
  negb (bool_decide (cwd = homedir)) && configExistsInPath g o cwd = false ->
  cwd = homedir \/ configExistsInPath g o cwd = false.
Proof.
  intros Hskip. apply andb_false_iff in Hskip as [Hhome|?]; [left|by right].
  apply negb_false_iff in Hhome. by apply bool_decide_eq_true in Hhome.
Qed.

(** The loop either runs out of candidates, all of them the home
    directory or without marker, or stops at the first other one. *)
Lemma searchUp_result (fuel : nat) (g : Globals) (o : OS)
    (homedir originalCwd cwd : string) (lastLength : nat)
    (o' : OS) (notes : list string) (r : bool * option error) :
  searchUp fuel g o homedir originalCwd cwd lastLength = Some (o', notes, r) ->
  (r = (false, None) /\ o' = o /\ notes = []
   /\ forall dir, spec.climbs g o homedir cwd lastLength dir ->
                  dir = homedir \/ configExistsInPath g o dir = false)
  \/ exists dir,
       spec.climbs g o homedir cwd lastLength dir
       /\ dir <> homedir
       /\ configExistsInPath g o dir = true
       /\ match chdirErr o dir with
          | Some err => r = (false, Some err) /\ o' = o /\ notes = []
          | None =>
              r = (true, None) /\ o' = (os.Chdir o dir).1
              /\ notes = if bool_decide (originalCwd = dir) then []
                         else ["Using devspace config in " ++ dir]
          end.
Proof.
  revert cwd lastLength. induction fuel as [|fuel IH]; intros cwd lastLength;
    [done|].
  simpl. case_bool_decide as Hlength.
  { intros [= <- <- <-]. left. repeat split; try done.
    intros dir Hclimbs. by apply climbs_length in Hclimbs. }
  destruct (negb (bool_decide (cwd = homedir)) && configExistsInPath g o cwd)
    eqn:Hhere.
  - apply andb_true_iff in Hhere as [Hhome Hexists].
    apply negb_true_iff, bool_decide_eq_false in Hhome.
    intros Hresult. right. exists cwd.
    split; [by constructor|]. split; [done|]. split; [done|].
    unfold os.Chdir in *. destruct (chdirErr o cwd); by simplify_eq.
  - apply skipped_directory in Hhere. intros Hresult.
    destruct (IH _ _ Hresult) as [(-> & -> & -> & Hnone)|(dir & Hclimbs & Hfound)].
    + left. repeat split; try done.
      intros dir Hclimbs. inversion Hclimbs; subst; [done|]. by apply Hnone.
    + right. exists dir. split; [by constructor|done].
Qed.

(** X11. [SetDevSpaceRoot] returns for every working directory: the
    candidates of the upward walk get shorter until the length stays,
    which bounds the number of turns of the loop. *)
Theorem SetDevSpaceRoot_terminates (g : Globals) (o : OS) :
  exists o' notes r, SetDevSpaceRoot g o = Some (o', notes, r).
Proof.
  destruct (SetDevSpaceRoot_returns g o) as [[[o' notes] r] Hreturns]. eauto.
Qed.

(** X12. When [SetDevSpaceRoot] reports a configuration as found, it
    returns no error and it has moved to a directory on the way from the
    working directory up to the root that is not the home directory and
    where [configExistsInPath] holds, the first such one; the files are
    as before, and a note is logged exactly when that directory is not
    the one it started in. *)
Theorem SetDevSpaceRoot_found (g : Globals) (o o' : OS) (notes : list string)
    (err : option error) :
  SetDevSpaceRoot g o = Some (o', notes, (true, err)) ->
  err = None
  /\ exists wd homedir dir,
       os.Getwd o = Ok wd /\ home o = Ok homedir
       /\ spec.climbs g o homedir wd 0 dir
       /\ dir <> homedir
       /\ configExistsInPath g o dir = true
       /\ cwd o' = os.locate o dir
       /\ files o' = files o
       /\ notes = if bool_decide (wd = dir) then []
                  else ["Using devspace config in " ++ dir].
Proof.
  unfold SetDevSpaceRoot. destruct (os.Getwd o) as [wd|] eqn:Hwd; [|done].
  destruct (home o) as [homedir|] eqn:Hhome; [|done]. intros Hsearch.
  apply searchUp_result in Hsearch as [([=] & _)|(dir & Hclimbs & Hdir & Hexists & Hr)].
  unfold os.Chdir in Hr. destruct (chdirErr o dir); [by destruct Hr|].
  destruct Hr as ([= <-] & -> & ->). split; [done|].
  exists wd, homedir, dir. repeat split; done.
Qed.

(** X13. Unless it reports a configuration as found, [SetDevSpaceRoot]
    leaves the working directory where it was and logs nothing. *)
Theorem SetDevSpaceRoot_not_found_unchanged (g : Globals) (o o' : OS)
    (notes : list string) (err : option error) :
  SetDevSpaceRoot g o = Some (o', notes, (false, err)) ->
  o' = o /\ notes = [].
Proof.
  unfold SetDevSpaceRoot. destruct (os.Getwd o) as [wd|]; [|by intros [= <- <-]].
  destruct (home o) as [homedir|]; [|by intros [= <- <-]]. intros Hsearch.
  apply searchUp_result in Hsearch as [(_ & -> & -> & _)|(dir & _ & _ & _ & Hr)];
    [done|].
  destruct (chdirErr o dir); [by destruct Hr as (_ & -> & ->)|by destruct Hr].
Qed.

(** When no directory of the walk qualifies, nothing is found. *)
Lemma SetDevSpaceRoot_none (g : Globals) (o : OS) (wd homedir : string) :
  os.Getwd o = Ok wd ->
  home o = Ok homedir ->
  (forall dir, spec.climbs g o homedir wd 0 dir ->
               dir = homedir \/ configExistsInPath g o dir = false) ->
  SetDevSpaceRoot g o = Some (o, [], (false, None)).
Proof.
  intros Hwd Hhome Hnone.
  destruct (SetDevSpaceRoot_returns g o) as [[[o' notes] r] Hreturns].
  rewrite Hreturns. unfold SetDevSpaceRoot in Hreturns.
  rewrite Hwd, Hhome in Hreturns.
  apply searchUp_result in Hreturns
    as [(-> & -> & -> & _)|(dir & Hclimbs & Hdir & Hexists & _)]; [done|].
  destruct (Hnone dir Hclimbs); congruence.
Qed.

(** X14. When every directory from the working directory up to the root
    is the home directory or holds no marker (and no model is loaded),
    [SetDevSpaceRoot] reports that nothing was found, without error and
    without moving: a marker in the home directory does not count. *)
Theorem SetDevSpaceRoot_nothing_found (g : Globals) (o : OS) (wd homedir : string) :
  os.Getwd o = Ok wd ->
  home o = Ok homedir ->
  (forall dir, spec.climbs g o homedir wd 0 dir ->
               dir = homedir \/ configExistsInPath g o dir = false) ->
  SetDevSpaceRoot g o = Some (o, [], (false, None)).
Proof. apply SetDevSpaceRoot_none. Qed.

(** X15. Without a loaded model, [configExistsInPath] holds for a
    directory exactly when one of the two markers, primary or legacy, is
    in it; once a model is loaded ([config] is not nil) it holds for every
    path, whatever the files. *)
Theorem configExistsInPath_markers (g : Globals) (o : OS) (dir : string) :
  filepath.IsAbs dir = true ->
  (config g <> None -> configExistsInPath g o dir = true)
  /\ (config g = None ->
      (configExistsInPath g o dir = true <->
       is_Some (files o !! filepath.Join dir constants.DefaultConfigPath)
       \/ is_Some (files o !! filepath.Join dir constants.DefaultConfigsPath))).
Proof.
  intros Habs. split.
  - intros Hconfig. unfold configExistsInPath. by destruct (config g).
  - intros Hconfig. unfold configExistsInPath.
    rewrite Hconfig, !Stat_absolute by done. simpl.
    destruct (files o !! filepath.Join dir constants.DefaultConfigPath)
      as [primary|]; simpl; [split; [intros _; left; eauto|done]|].
    destruct (files o !! filepath.Join dir constants.DefaultConfigsPath)
      as [legacy|]; simpl; [split; [intros _; right; eauto|done]|].
    split; [done|]. by intros [[? ?]|[? ?]].
Qed.

(** X16. Once a model is loaded, [SetDevSpaceRoot] reports the working
    directory itself as the project root, whatever the files, unless it
    is the home directory; it logs nothing. *)
Theorem SetDevSpaceRoot_with_loaded_model (g : Globals) (o : OS)
    (wd homedir : string) :
  config g <> None ->
  os.Getwd o = Ok wd ->
  wd <> "" ->
  home o = Ok homedir ->
  wd <> homedir ->
  chdirErr o wd = None ->
  exists o', SetDevSpaceRoot g o = Some (o', [], (true, None))
             /\ cwd o' = os.locate o wd /\ files o' = files o.
Proof.
  intros Hconfig Hwd Hnonempty Hhome Hnothome Hchdir.
  unfold SetDevSpaceRoot. rewrite Hwd, Hhome. simpl.
  rewrite bool_decide_eq_false_2 by (by destruct wd).
  rewrite bool_decide_eq_false_2 by done.
  assert (configExistsInPath g o wd = true) as ->
    by (unfold configExistsInPath; by destruct (config g)).
  simpl. unfold os.Chdir. rewrite Hchdir, bool_decide_eq_true_2 by done.
  by eexists.
Qed.

End RootLocatorResults.

Lemma SetDevSpaceRoot_found_witness :
  SetDevSpaceRoot sample.cold sample2.nested
    = Some ((os.Chdir sample2.nested "/work/app").1,
            ["Using devspace config in /work/app"], (true, None))
  /\ exists wd homedir dir,
       os.Getwd sample2.nested = Ok wd /\ home sample2.nested = Ok homedir
       /\ spec.climbs sample.cold sample2.nested homedir wd 0 dir
       /\ dir <> homedir
       /\ configExistsInPath sample.cold sample2.nested dir = true
       /\ cwd (os.Chdir sample2.nested "/work/app").1 = os.locate sample2.nested dir
       /\ files (os.Chdir sample2.nested "/work/app").1 = files sample2.nested
       /\ ["Using devspace config in /work/app"]
            = if bool_decide (wd = dir) then []
              else ["Using devspace config in " ++ dir].
Proof.
  assert (SetDevSpaceRoot sample.cold sample2.nested
          = Some ((os.Chdir sample2.nested "/work/app").1,
                  ["Using devspace config in /work/app"], (true, None))) as Hfound
    by (by vm_compute).
  split; [exact Hfound|].
  exact (proj2 (SetDevSpaceRoot_found _ _ _ _ _ Hfound)).
Defined.

Lemma SetDevSpaceRoot_not_found_unchanged_witness :
  SetDevSpaceRoot sample.cold sample2.unmarked
    = Some (sample2.unmarked, [], (false, None))
  /\ sample2.unmarked = sample2.unmarked /\ @nil string = [].
Proof.
  assert (SetDevSpaceRoot sample.cold sample2.unmarked
          = Some (sample2.unmarked, [], (false, None))) as Hnone by (by vm_compute).
  split; [exact Hnone|].
  exact (SetDevSpaceRoot_not_found_unchanged _ _ _ _ _ Hnone).
Defined.

Lemma unmarked_has_no_marker (dir : string) :
  configExistsInPath sample.cold sample2.unmarked dir = false.
Proof.
  unfold configExistsInPath, os.Stat; simpl. by rewrite !lookup_empty.
Qed.

Lemma SetDevSpaceRoot_nothing_found_witness :
  (forall dir, spec.climbs sample.cold sample2.unmarked "/home/dev" "/work/app" 0 dir ->
               dir = "/home/dev"
               \/ configExistsInPath sample.cold sample2.unmarked dir = false)
  /\ SetDevSpaceRoot sample.cold sample2.unmarked
       = Some (sample2.unmarked, [], (false, None)).
Proof.
  assert (forall dir,
            spec.climbs sample.cold sample2.unmarked "/home/dev" "/work/app" 0 dir ->
            dir = "/home/dev"
            \/ configExistsInPath sample.cold sample2.unmarked dir = false) as Hnone
    by (intros dir _; right; apply unmarked_has_no_marker).
  split; [exact Hnone|].
  exact (SetDevSpaceRoot_nothing_found sample.cold sample2.unmarked "/work/app"
           "/home/dev" eq_refl eq_refl Hnone).
Defined.

Lemma configExistsInPath_markers_witness :
  filepath.IsAbs "/work/app" = true
  /\ (config sample2.loaded <> None ->
      configExistsInPath sample2.loaded sample2.unmarked "/work/app" = true)
  /\ (config sample2.loaded = None ->
      (configExistsInPath sample2.loaded sample2.unmarked "/work/app" = true <->
       is_Some (files sample2.unmarked
                  !! filepath.Join "/work/app" constants.DefaultConfigPath)
       \/ is_Some (files sample2.unmarked
                     !! filepath.Join "/work/app" constants.DefaultConfigsPath))).
Proof.
  split; [reflexivity|].
  exact (configExistsInPath_markers sample2.loaded sample2.unmarked "/work/app"
           eq_refl).
Defined.

Lemma SetDevSpaceRoot_with_loaded_model_witness :
  config sample2.loaded <> None
  /\ files sample2.unmarked = ∅
  /\ exists o', SetDevSpaceRoot sample2.loaded sample2.unmarked
                  = Some (o', [], (true, None))
                /\ cwd o' = os.locate sample2.unmarked "/work/app"
                /\ files o' = files sample2.unmarked.
Proof.
  assert (config sample2.loaded <> None) as Hloaded by done.
  split; [exact Hloaded|]. split; [reflexivity|].
  apply (SetDevSpaceRoot_with_loaded_model sample2.loaded sample2.unmarked
           "/work/app" "/home/dev" Hloaded eq_refl); done.
Defined.

(** ** The command [devspace run] *)

Section Run.

Variable ParseCommands :
  GeneratedConfig -> gmap string Value -> option ConfigOptions
  -> result (list CommandConfig).
Variable ExecuteCommand :
  list CommandConfig -> string -> list string -> option cmd.commandError.

Abbreviation RunRun := (cmd.RunRun ParseCommands ExecuteCommand).

(** X17. In a directory tree without marker, [devspace run] returns the
    error that asks for [devspace init]; it stays where it was, saves
    nothing and runs nothing. *)
Theorem RunRun_without_configuration (g : Globals) (w : World)
    (args : list string) (wd homedir : string) :
  os.Getwd (sys w) = Ok wd ->
  home (sys w) = Ok homedir ->
  (forall dir, spec.climbs g (sys w) homedir wd 0 dir ->
               dir = homedir \/ configExistsInPath g (sys w) dir = false) ->
  RunRun g w args =
  Some (sys w, [],
        cmd.Returns (Some (cmd.Plain (ErrorsErrorf
          "Couldn't find a DevSpace configuration. Please run `devspace init`")))).
Proof.
  intros Hwd Hhome Hnone. unfold cmd.RunRun.
  by rewrite (SetDevSpaceRoot_none g (sys w) wd homedir).
Qed.

(** X18. In a project that holds the legacy marker only, [devspace run]
    moves to the directory of the marker and then fails on reading
    [devspace.yaml]: the error is that of the missing file, not the one
    on the legacy format, and nothing is saved or run. *)
Theorem RunRun_legacy_project (g : Globals) (w : World) (args : list string)
    (wd homedir dir : string) :
  config g = None ->
  os.Getwd (sys w) = Ok wd ->
  filepath.IsAbs wd = true ->
  home (sys w) = Ok homedir ->
  spec.climbs g (sys w) homedir wd 0 dir ->
  dir <> homedir ->
  files (sys w) !! filepath.Join dir constants.DefaultConfigPath = None ->
  is_Some (files (sys w) !! filepath.Join dir constants.DefaultConfigsPath) ->
  chdirErr (sys w) dir = None ->
  exists o',
    RunRun g w args =
    Some (o', [],
          cmd.Returns (Some (cmd.Plain (Foreign
            "open devspace.yaml: no such file or directory"))))
    /\ cwd o' = dir.
Proof.
  intros Hconfig Hgetwd Hwd Hhomedir Hclimbs Hhome Hprimary [entry Hlegacy] Hchdir.
  assert (filepath.IsAbs dir = true) as Hdir by (by eapply climbs_IsAbs).
  assert (configExistsInPath g (sys w) dir = true) as Hexists.
  { unfold configExistsInPath. rewrite Hconfig, !Stat_absolute by done.
    by rewrite Hprimary, Hlegacy. }
  assert (wd <> "") as Hnonempty by (by destruct wd).
  destruct (searchUp_climbs g (sys w) homedir wd wd 0 dir (S (S (String.length wd)))
              Hclimbs Hhome Hexists Hchdir Hnonempty) as (o' & notes & Hsearch & Ho');
    [lia|].
  exists o'. unfold cmd.RunRun, SetDevSpaceRoot. rewrite Hgetwd, Hhomedir, Hsearch.
  unfold os.Chdir in Ho'. rewrite Hchdir in Ho'. injection Ho' as <-.
  unfold os.ReadYaml, os.locate; simpl. rewrite Hdir; simpl.
  change (filepath.Join dir "devspace.yaml")
    with (filepath.Join dir constants.DefaultConfigPath).
  by rewrite Hprimary.
Qed.

(** X19. [devspace run] runs the command only after the generated state
    has been saved without error: a call of [command.ExecuteCommand] is
    the second and last one, after the call of [generated.SaveConfig]
    that returned nil, and its arguments are [args[0]] and [args[1:]]. *)
Theorem RunRun_saves_before_executing (g : Globals) (w : World)
    (args : list string) (o' : OS) (events : list cmd.Event) (r : cmd.Result)
    (name : string) (rest : list string) :
  RunRun g w args = Some (o', events, r) ->
  cmd.CallExecuteCommand name rest ∈ events ->
  exists generatedConfig,
    events = [cmd.CallSaveConfig generatedConfig; cmd.CallExecuteCommand name rest]
    /\ generated_SaveConfig w generatedConfig = None
    /\ generated_LoadConfig w "" = Ok generatedConfig
    /\ args = name :: rest.
Proof.
  unfold cmd.RunRun. intros Hrun Hin.
  repeat case_match; simplify_eq;
    repeat (apply elem_of_cons in Hin as [Hin|Hin]; simplify_eq);
    try (by apply elem_of_nil in Hin).
  all: by eexists.
Qed.

(** X20. [devspace run] returns an exit code only for a command that it
    ran and that exited with that status, as [interp.ShellExitStatus] or
    as [interp.ExitStatus]. *)
Theorem RunRun_exit_code (g : Globals) (w : World) (args : list string)
    (o' : OS) (events : list cmd.Event) (code : Z) :
  RunRun g w args = Some (o', events, cmd.Returns (Some (cmd.ReturnCodeError code))) ->
  exists commands name rest,
    args = name :: rest
    /\ cmd.CallExecuteCommand name rest ∈ events
    /\ (ExecuteCommand commands name rest = Some (cmd.ShellExitStatus code)
        \/ ExecuteCommand commands name rest = Some (cmd.ExitStatus code)).
Proof.
  unfold cmd.RunRun. intros Hrun.
  repeat case_match; simplify_eq.
  all: eexists _, _, _; split; [done|]; split;
    [apply elem_of_cons; right; apply elem_of_cons; by left|eauto].
Qed.

End Run.

Lemma legacy_climbs :
  spec.climbs sample.cold sample.legacy "/home/dev" "/work/app/src/cmd" 0 "/work/app".
Proof.
  apply spec.climbs_up; [by vm_compute|right; by vm_compute|].
  apply (spec.climbs_up _ _ _ "/work/app/src"); [by vm_compute|right; by vm_compute|].
  apply (spec.climbs_here _ _ _ "/work/app"). by vm_compute.
Qed.

Lemma RunRun_without_configuration_witness :
  (forall dir,
     spec.climbs sample.cold (sys (sample.world sample2.unmarked "")) "/home/dev"
       "/work/app" 0 dir ->
     dir = "/home/dev"
     \/ configExistsInPath sample.cold (sys (sample.world sample2.unmarked "")) dir
        = false)
  /\ cmd.RunRun sample2.parseCommands sample2.exits3 sample.cold
       (sample.world sample2.unmarked "") ["test"] =
     Some (sample2.unmarked, [],
           cmd.Returns (Some (cmd.Plain (ErrorsErrorf
             "Couldn't find a DevSpace configuration. Please run `devspace init`")))).
Proof.
  assert (forall dir,
     spec.climbs sample.cold (sys (sample.world sample2.unmarked "")) "/home/dev"
       "/work/app" 0 dir ->
     dir = "/home/dev"
     \/ configExistsInPath sample.cold (sys (sample.world sample2.unmarked "")) dir
        = false) as Hnone
    by (intros dir _; right; apply unmarked_has_no_marker).
  split; [exact Hnone|].
  exact (RunRun_without_configuration sample2.parseCommands sample2.exits3
           sample.cold (sample.world sample2.unmarked "") ["test"] "/work/app"
           "/home/dev" eq_refl eq_refl Hnone).
Defined.

Lemma RunRun_legacy_project_witness :
  files sample.legacy !! filepath.Join "/work/app" constants.DefaultConfigPath = None
  /\ is_Some (files sample.legacy
                !! filepath.Join "/work/app" constants.DefaultConfigsPath)
  /\ exists o',
       cmd.RunRun sample2.parseCommands sample2.exits3 sample.cold
         (sample.world sample.legacy "") ["test"] =
       Some (o', [],
             cmd.Returns (Some (cmd.Plain (Foreign
               "open devspace.yaml: no such file or directory"))))
       /\ cwd o' = "/work/app".
Proof.
  assert (files sample.legacy !! filepath.Join "/work/app" constants.DefaultConfigPath
          = None) as Hprimary by (by vm_compute).
  assert (is_Some (files sample.legacy
                     !! filepath.Join "/work/app" constants.DefaultConfigsPath))
    as Hlegacy by (eexists; by vm_compute).
  split; [exact Hprimary|]. split; [exact Hlegacy|].
  exact (RunRun_legacy_project sample2.parseCommands sample2.exits3 sample.cold
           (sample.world sample.legacy "") ["test"] "/work/app/src/cmd" "/home/dev"
           "/work/app" eq_refl eq_refl eq_refl eq_refl legacy_climbs
           ltac:(discriminate) Hprimary Hlegacy eq_refl).
Defined.

Lemma RunRun_sample :
  cmd.RunRun sample2.parseCommands sample2.exits3 sample.cold
    (sample.world sample.project "") ["test"; "-v"] =
  Some ((os.Chdir sample.project "/work/app").1,
        [cmd.CallSaveConfig {| ActiveProfile := "" |};
         cmd.CallExecuteCommand "test" ["-v"]],
        cmd.Returns (Some (cmd.ReturnCodeError 3))).
Proof. by vm_compute. Qed.

Lemma RunRun_saves_before_executing_witness :
  cmd.CallExecuteCommand "test" ["-v"]
    ∈ [cmd.CallSaveConfig {| ActiveProfile := "" |};
       cmd.CallExecuteCommand "test" ["-v"]]
  /\ exists generatedConfig,
       [cmd.CallSaveConfig {| ActiveProfile := "" |};
        cmd.CallExecuteCommand "test" ["-v"]]
         = [cmd.CallSaveConfig generatedConfig; cmd.CallExecuteCommand "test" ["-v"]]
       /\ generated_SaveConfig (sample.world sample.project "") generatedConfig = None
       /\ generated_LoadConfig (sample.world sample.project "") "" = Ok generatedConfig
       /\ ["test"; "-v"] = "test" :: ["-v"].
Proof.
  assert (cmd.CallExecuteCommand "test" ["-v"]
            ∈ [cmd.CallSaveConfig {| ActiveProfile := "" |};
               cmd.CallExecuteCommand "test" ["-v"]]) as Hin
    by (apply elem_of_cons; right; apply elem_of_cons; by left).
  split; [exact Hin|].
  exact (RunRun_saves_before_executing _ _ _ _ _ _ _ _ _ _ RunRun_sample Hin).
Defined.

Lemma RunRun_exit_code_witness :
  exists commands name rest,
    ["test"; "-v"] = name :: rest
    /\ cmd.CallExecuteCommand name rest
         ∈ [cmd.CallSaveConfig {| ActiveProfile := "" |};
            cmd.CallExecuteCommand "test" ["-v"]]
    /\ (sample2.exits3 commands name rest = Some (cmd.ShellExitStatus 3)
        \/ sample2.exits3 commands name rest = Some (cmd.ExitStatus 3)).
Proof.
  exact (RunRun_exit_code _ _ _ _ _ _ _ _ RunRun_sample).
Defined.

(** ** What a resolution returns *)

#[local] Open Scope list_scope.

Section ResolverResults.

Variable ParseConfig :
  GeneratedConfig -> gmap string Value -> ConfigOptions -> result Config.
Variable decode : gmap string Value -> Decoded.

Abbreviation loadConfig := (loadConfig ParseConfig decode).
Abbreviation loadConfigOnce := (loadConfigOnce ParseConfig decode).
Abbreviation GetConfigFromPath := (GetConfigFromPath ParseConfig decode).

(** What a success of [GetConfigFromPath] took. *)
Lemma GetConfigFromPath_Ok (o : OS) (generatedConfig : GeneratedConfig)
    (basePath : string) (options : option ConfigOptions) (loadedConfig : Config) :
  (GetConfigFromPath o generatedConfig basePath options).2 = Ok loadedConfig ->
  os.Stat o (filepath.Join basePath constants.DefaultConfigPath) = None
  /\ (exists rawMap,
        GetRawConfig o (filepath.Join basePath constants.DefaultConfigPath) = Ok rawMap
        /\ ParseConfig generatedConfig rawMap (default newConfigOptions options)
             = Ok loadedConfig)
  /\ validate decode o loadedConfig = None.
Proof.
  unfold configutil.GetConfigFromPath.
  destruct (os.Stat o _); [by destruct (os.Stat o _)|].
  destruct (GetRawConfig o _) as [rawMap|]; [|done].
  destruct (ParseConfig _ _ _) as [c|] eqn:Hparse; [|done].
  destruct (validate decode o c) eqn:Hvalid; [done|].
  intros [= <-]. eauto.
Qed.

(** X21. [GetConfigFromPath] returns a model exactly when the primary
    marker is there, the file reads and parses as YAML, [ParseConfig]
    turns the document into that model and the validator accepts it: no
    model that the validator refuses is returned. *)
Theorem GetConfigFromPath_returns_validated (o : OS)
    (generatedConfig : GeneratedConfig) (basePath : string)
    (options : option ConfigOptions) (loadedConfig : Config) :
  (GetConfigFromPath o generatedConfig basePath options).2 = Ok loadedConfig <->
  os.Stat o (filepath.Join basePath constants.DefaultConfigPath) = None
  /\ (exists rawMap,
        GetRawConfig o (filepath.Join basePath constants.DefaultConfigPath) = Ok rawMap
        /\ ParseConfig generatedConfig rawMap (default newConfigOptions options)
             = Ok loadedConfig)
  /\ validate decode o loadedConfig = None.
Proof.
  split; [apply GetConfigFromPath_Ok|].
  intros (Hstat & (rawMap & Hraw & Hparse) & Hvalid).
  unfold configutil.GetConfigFromPath. by rewrite Hstat, Hraw, Hparse, Hvalid.
Qed.

(** The package state after the function literal, by the stage at which
    it returned. *)
Lemma loadConfig_outcome (w : World) (g : Globals)
    (options : option ConfigOptions) (allowProfile : bool) :
  let g' := (loadConfig w g options allowProfile).1 in
  (is_Some (getConfigOnceErr g') /\ StepGeneratedSave ∉ drop (length (steps g)) (steps g'))
  \/ (exists loadedConfig,
        config g' = Some loadedConfig
        /\ validate decode (sys w) loadedConfig = None
        /\ getConfigOnceErr g' = getConfigOnceErr g
        /\ steps g' = steps g ++ spec.fullPipeline)
  \/ (exists loadedConfig,
        config g' = Some loadedConfig
        /\ validate decode (sys w) loadedConfig = None
        /\ is_Some (getConfigOnceErr g')).
Proof.
  unfold configutil.loadConfig.
  destruct (generated_LoadConfig w _) as [generatedConfig|err]; simpl.
  2: { left. split; [by eexists|]. rewrite drop_app_length.
       by intros ?%list_elem_of_singleton. }
  match goal with
  | |- context [GetConfigFromPath ?o ?gen ?base ?opts] =>
      pose proof (GetConfigFromPath_Ok o gen base opts) as Hok;
      destruct (GetConfigFromPath_stages ParseConfig decode o gen base opts)
        as (n & Hn & Hstages & Hall);
      destruct (GetConfigFromPath o gen base opts) as [stages loaded]
  end.
  simpl in *. subst stages. destruct loaded as [loadedConfig|err].
  - destruct (Hok loadedConfig eq_refl) as (_ & _ & Hvalid).
    destruct (generated_SaveConfig w generatedConfig) eqn:Hsave; simpl.
    + right; right. exists loadedConfig. repeat split; [done|by eexists].
    + right; left. exists loadedConfig. repeat split; try done.
      rewrite (Hall (ex_intro _ loadedConfig eq_refl)).
      simpl. by rewrite <- !app_assoc.
  - left. split; [by eexists|]. simpl.
    rewrite <- !app_assoc, drop_app_length.
    destruct n as [|[|[|[|n]]]]; simpl; set_solver.
Qed.

(** X22. A model that a call on a cold cache returns without error has
    been accepted by the validator, in a run that went through all six
    stages. *)
Theorem first_call_returns_valid_model (w : World) (g g1 : Globals)
    (options options1 : option ConfigOptions) (allowProfile : bool)
    (returned : option Config) :
  getConfigOnce g = false ->
  loadConfigOnce w g options allowProfile = (g1, options1, (returned, None)) ->
  exists loadedConfig,
    returned = Some loadedConfig
    /\ validate decode (sys w) loadedConfig = None
    /\ steps g1 = steps g ++ spec.fullPipeline.
Proof.
  intros Hcold. rewrite loadConfigOnce_cold by done. intros [= <- _ <- Herr].
  destruct (loadConfig_outcome w g options allowProfile)
    as [[[? Hsome] _]|[(c & Hc & Hvalid & _ & Hsteps)|(c & _ & _ & [? Hsome])]];
    try congruence.
  by exists c.
Qed.

(** X23. The generated state is saved only at the end of a run that
    loaded a model and had it accepted: when a call on a cold cache
    enters the save stage, the package holds a model that the validator
    accepts. *)
Theorem generated_state_saved_after_validation (w : World) (g g1 : Globals)
    (options options1 : option ConfigOptions) (allowProfile : bool)
    (returned : option Config * option error) :
  getConfigOnce g = false ->
  loadConfigOnce w g options allowProfile = (g1, options1, returned) ->
  StepGeneratedSave ∈ drop (length (steps g)) (steps g1) ->
  exists loadedConfig,
    config g1 = Some loadedConfig /\ validate decode (sys w) loadedConfig = None.
Proof.
  intros Hcold. rewrite loadConfigOnce_cold by done. intros [= <- _ _] Hsave.
  simpl in Hsave.
  destruct (loadConfig_outcome w g options allowProfile)
    as [[_ Hnone]|[(c & Hc & Hvalid & _)|(c & Hc & Hvalid & _)]];
    [done|by exists c..].
Qed.

(** X24. On a cold cache, when the generated state loads, [GetBaseConfig]
    clears the profile in the options of its caller, whatever was asked
    for, and [GetConfig] leaves a profile that the caller named as it
    is. *)
Theorem profile_selection (w : World) (g : Globals) (options : ConfigOptions)
    (generatedConfig : GeneratedConfig) :
  getConfigOnce g = false ->
  generated_LoadConfig w (Profile options) = Ok generatedConfig ->
  (exists g1 options1 returned,
     GetBaseConfig ParseConfig decode w g (Some options)
       = (g1, Some options1, returned)
     /\ Profile options1 = "")
  /\ (Profile options <> "" ->
      exists g1 options1 returned,
        GetConfig ParseConfig decode w g (Some options)
          = (g1, Some options1, returned)
        /\ Profile options1 = Profile options).
Proof.
  intros Hcold Hload. unfold GetBaseConfig, GetConfig.
  rewrite !loadConfigOnce_cold by done.
  unfold configutil.loadConfig; simpl. rewrite Hload. split.
  - destruct (GetConfigFromPath _ _ _ _) as [stages [loadedConfig|err]];
      [destruct (generated_SaveConfig w generatedConfig)|];
      simpl; by eexists _, _, _.
  - intros Hprofile. unfold selectProfile; simpl.
    rewrite (bool_decide_eq_false_2 _ Hprofile), andb_false_r.
    destruct (GetConfigFromPath _ _ _ _) as [stages [loadedConfig|err]];
      [destruct (generated_SaveConfig w generatedConfig)|];
      simpl; by eexists _, _, _.
Qed.

(** X25. When the generated state fails to load, the call after a reset
    returns the error of the load together with whatever model the
    package held before, and nothing else was attempted. *)
Theorem reset_failed_load_keeps_model (w : World) (g : Globals)
    (options : option ConfigOptions) (allowProfile : bool) (err : error) :
  generated_LoadConfig w (Profile (default newConfigOptions options)) = Err err ->
  (loadConfigOnce w (ResetConfig g) options allowProfile).2 = (config g, Some err)
  /\ steps (loadConfigOnce w (ResetConfig g) options allowProfile).1.1
       = steps g ++ [StepGeneratedLoad].
Proof.
  intros Hload. rewrite loadConfigOnce_cold by done.
  unfold configutil.loadConfig. by rewrite Hload.
Qed.

(** X26. [InitConfig] and the resolution share one [sync.Once], and the
    first of them to run decides: after [InitConfig] on a cold cache a
    call returns the model of [latest.New] without resolving anything,
    and after a resolution [InitConfig] returns what the resolution left,
    a model or nil, and changes nothing. *)
Theorem InitConfig_shares_once (latest_New : Config) (w : World) (g : Globals)
    (options : option ConfigOptions) (allowProfile : bool) :
  getConfigOnce g = false ->
  loadConfigOnce w (InitConfig latest_New g).1 options allowProfile
    = ((InitConfig latest_New g).1, options, (Some latest_New, getConfigOnceErr g))
  /\ steps (InitConfig latest_New g).1 = steps g
  /\ InitConfig latest_New (loadConfigOnce w g options allowProfile).1.1
       = ((loadConfigOnce w g options allowProfile).1.1,
          (loadConfigOnce w g options allowProfile).2.1).
Proof.
  intros Hcold. split; [|split].
  - unfold InitConfig. rewrite Hcold. by rewrite loadConfigOnce_fired.
  - unfold InitConfig. by rewrite Hcold.
  - by rewrite loadConfigOnce_cold.
Qed.

End ResolverResults.

Lemma first_call_returns_valid_model_witness :
  getConfigOnce sample.cold = false
  /\ sample2.resolved.2 = (Some sample.emptyConfig, None)
  /\ exists loadedConfig,
       Some sample.emptyConfig = Some loadedConfig
       /\ validate sample.decode (sys (sample.world sample.project "")) loadedConfig
            = None
       /\ steps sample2.resolved.1.1 = steps sample.cold ++ spec.fullPipeline.
Proof.
  split; [reflexivity|]. split; [reflexivity|].
  apply (first_call_returns_valid_model (sample.parseTo sample.emptyConfig)
           sample.decode (sample.world sample.project "") sample.cold
           sample2.resolved.1.1 None sample2.resolved.1.2 true
           (Some sample.emptyConfig) eq_refl).
  reflexivity.
Defined.

Lemma generated_state_saved_after_validation_witness :
  StepGeneratedSave ∈ drop (length (steps sample.cold)) (steps sample2.resolved.1.1)
  /\ exists loadedConfig,
       config sample2.resolved.1.1 = Some loadedConfig
       /\ validate sample.decode (sys (sample.world sample.project "")) loadedConfig
            = None.
Proof.
  assert (StepGeneratedSave
            ∈ drop (length (steps sample.cold)) (steps sample2.resolved.1.1)) as Hin.
  { change (StepGeneratedSave ∈ spec.fullPipeline).
    unfold spec.fullPipeline. do 5 (apply elem_of_cons; right).
    apply elem_of_cons; by left. }
  split; [exact Hin|].
  apply (generated_state_saved_after_validation (sample.parseTo sample.emptyConfig)
           sample.decode (sample.world sample.project "") sample.cold
           sample2.resolved.1.1 None sample2.resolved.1.2 true sample2.resolved.2
           eq_refl); [reflexivity|exact Hin].
Defined.

Lemma profile_selection_witness :
  getConfigOnce sample.cold = false
  /\ Profile sample2.namedOptions <> ""
  /\ (exists g1 options1 returned,
        GetBaseConfig (sample.parseTo sample.emptyConfig) sample.decode
          (sample.world sample.project "staging") sample.cold
          (Some sample2.namedOptions) = (g1, Some options1, returned)
        /\ Profile options1 = "")
  /\ (Profile sample2.namedOptions <> "" ->
      exists g1 options1 returned,
        GetConfig (sample.parseTo sample.emptyConfig) sample.decode
          (sample.world sample.project "staging") sample.cold
          (Some sample2.namedOptions) = (g1, Some options1, returned)
        /\ Profile options1 = Profile sample2.namedOptions).
Proof.
  split; [reflexivity|]. split; [discriminate|].
  exact (profile_selection (sample.parseTo sample.emptyConfig) sample.decode
           (sample.world sample.project "staging") sample.cold sample2.namedOptions
           {| ActiveProfile := "staging" |} eq_refl eq_refl).
Defined.

Lemma reset_failed_load_keeps_model_witness :
  config sample2.resolved.1.1 = Some sample.emptyConfig
  /\ (loadConfigOnce (sample.parseTo sample.emptyConfig) sample.decode
        (sample.brokenState sample.project) (ResetConfig sample2.resolved.1.1)
        None true).2
       = (config sample2.resolved.1.1,
          Some (Foreign "generated.yaml: yaml: unmarshal errors"))
  /\ steps (loadConfigOnce (sample.parseTo sample.emptyConfig) sample.decode
              (sample.brokenState sample.project) (ResetConfig sample2.resolved.1.1)
              None true).1.1
       = steps sample2.resolved.1.1 ++ [StepGeneratedLoad].
Proof.
  split; [reflexivity|].
  exact (reset_failed_load_keeps_model (sample.parseTo sample.emptyConfig)
           sample.decode (sample.brokenState sample.project) sample2.resolved.1.1
           None true (Foreign "generated.yaml: yaml: unmarshal errors") eq_refl).
Defined.

Lemma InitConfig_shares_once_witness :
  getConfigOnce sample.cold = false
  /\ loadConfigOnce (sample.parseTo sample.emptyConfig) sample.decode
       (sample.world sample.project "") (InitConfig sample2.valid sample.cold).1
       None true
     = ((InitConfig sample2.valid sample.cold).1, None,
        (Some sample2.valid, getConfigOnceErr sample.cold))
  /\ steps (InitConfig sample2.valid sample.cold).1 = steps sample.cold
  /\ InitConfig sample2.valid
       (loadConfigOnce (sample.parseTo sample.emptyConfig) sample.decode
          (sample.world sample.project "") sample.cold None true).1.1
     = ((loadConfigOnce (sample.parseTo sample.emptyConfig) sample.decode
           (sample.world sample.project "") sample.cold None true).1.1,
        (loadConfigOnce (sample.parseTo sample.emptyConfig) sample.decode
           (sample.world sample.project "") sample.cold None true).2.1).
Proof.
  split; [reflexivity|].
  exact (InitConfig_shares_once (sample.parseTo sample.emptyConfig) sample.decode
           sample2.valid (sample.world sample.project "") sample.cold None true
           eq_refl).
Defined.

#[local] Open Scope string_scope.
